(** * alpine / apps/stgp_poisson.py: the fitness pipeline of the Poisson
    symbolic-regression application.

    Python floats and NumPy/JAX float64 scalars are IEEE binary64 numbers,
    embedded as Rocq's primitive floats.  One-dimensional arrays are lists,
    two-dimensional arrays are lists of rows.  A Python exception is the
    [Raise] branch of the result type [res]; every function that can raise
    in the source returns in [res] here.

    Library calls whose code is not part of the application (SciPy's
    [minimize], JAX's [grad], the expression compiler behind
    [toolbox.compile], the variation operators) are variables of the
    sections that use them. *)

From Stdlib Require Import Floats ZArith Uint63.
From stdpp Require Import gmap strings list pretty.

Set Warnings "-inexact-float".

(** ** Exceptions and results *)

Inductive exn : Type :=
  | IndexError
  | KeyError (key : string)
  | ValueError
  | TypeError
  | AttributeError (attr : string)
  | ZeroDivisionError
  | EvalError (msg : string).

Inductive res (A : Type) : Type :=
  | Ok (a : A)
  | Raise (e : exn).
Arguments Ok {A} a.
Arguments Raise {A} e.

#[global] Instance res_ret : MRet res := fun _ a => Ok a.
#[global] Instance res_bind : MBind res := fun _ _ k m =>
  match m with
  | Ok a => k a
  | Raise e => Raise e
  end.
#[global] Instance res_fmap : FMap res := fun _ _ g m =>
  match m with
  | Ok a => Ok (g a)
  | Raise e => Raise e
  end.

Definition is_Ok {A} (m : res A) : bool :=
  match m with Ok _ => true | Raise _ => false end.

(** ** Arrays *)

Abbreviation vec := (list float).
Abbreviation matrix := (list (list float)).

(** [int -> float] as Python converts the operands of [/] and [*]; exact for
    every count below 2^53. *)
Definition float_of_nat (n : nat) : float :=
  PrimFloat.of_uint63 (Uint63.of_Z (Z.of_nat n)).

(** [a[i, :]]: a row of a two-dimensional array, [IndexError] out of range. *)
Definition row (a : matrix) (i : nat) : res vec :=
  match a !! i with
  | Some r => Ok r
  | None => Raise IndexError
  end.

(** [a[idx]] with an integer index array: one entry per index. *)
Fixpoint index_array (a : vec) (idx : list nat) : res vec :=
  match idx with
  | [] => Ok []
  | i :: idx' =>
      match a !! i with
      | Some v => vs ← index_array a idx'; mret (v :: vs)
      | None => Raise IndexError
      end
  end.

(** Elementwise [a - b] of two one-dimensional arrays, with NumPy's
    broadcasting of a length-one operand; other shape mismatches raise. *)
Definition vsub (a b : vec) : res vec :=
  if decide (length a = length b) then Ok (zip_with PrimFloat.sub a b)
  else match a, b with
       | _, [b0] => Ok (map (fun t => PrimFloat.sub t b0) a)
       | [a0], _ => Ok (map (fun t => PrimFloat.sub a0 t) b)
       | _, _ => Raise ValueError
       end.

(** [a ** 2] on an array. *)
Definition vsquare (a : vec) : vec := map (fun t => PrimFloat.mul t t) a.

(** [jnp.sum(a)] and [a.dot(a)], accumulated left to right from zero. *)
Definition vsum (a : vec) : float := foldl PrimFloat.add 0%float a.
Definition dot (a b : vec) : float := vsum (zip_with PrimFloat.mul a b).

(** [np.linalg.norm(a)] of a real one-dimensional array: [sqrt(a.dot(a))]. *)
Definition norm (a : vec) : float := PrimFloat.sqrt (dot a a).

(** ** Mesh and cochains (dctkit), reduced to what the application reads *)

Record SimplicialComplex : Type := { num_nodes : nat }.

Record CochainP0 : Type := mkCochainP0 { complex : SimplicialComplex; coeffs : vec }.

(** ** Individuals (deap.gp.PrimitiveTree): a list of nodes in prefix order *)

Inductive node : Type :=
  | Primitive (name : string) (arity : nat)
  | Terminal (text : string).

Definition node_arity (n : node) : nat :=
  match n with Primitive _ k => k | Terminal _ => 0 end.

Abbreviation PrimitiveTree := (list node).

(** What [toolbox.compile] returns: a callable of two cochains. *)
Definition energy : Type := CochainP0 -> CochainP0 -> res float.

(** ** class ObjFunction *)

Record ObjFunction : Type := mkObjFunction {
  obj_S : SimplicialComplex;
  obj_bnodes : list nat;
  obj_gamma : float;
  obj_energy_func : option energy;
  obj_individual : option PrimitiveTree
}.

(** A method is a function of the instance that returns its outcome together
    with the instance as the call leaves it. *)
Definition method (A : Type) : Type := ObjFunction -> res A * ObjFunction.

(** [ObjFunction.__init__] *)
Definition ObjFunction_init (S : SimplicialComplex) (bnodes : list nat) (gamma : float)
  : ObjFunction :=
  {| obj_S := S; obj_bnodes := bnodes; obj_gamma := gamma;
     obj_energy_func := None; obj_individual := None |}.

(** [ObjFunction.set_energy_func] *)
Definition set_energy_func (func : energy) (individual : PrimitiveTree) : method unit :=
  fun self =>
    (Ok tt,
     {| obj_S := obj_S self; obj_bnodes := obj_bnodes self; obj_gamma := obj_gamma self;
        obj_energy_func := Some func; obj_individual := Some individual |}).

(** [self.energy_func]: an attribute that exists only once it has been set. *)
Definition get_energy_func (self : ObjFunction) : res energy :=
  match obj_energy_func self with
  | Some f => Ok f
  | None => Raise (AttributeError "energy_func")
  end.

(** [ObjFunction.total_energy] *)
Definition total_energy (vec_x vec_y vec_bvalues : vec) : method float :=
  fun self =>
    (xb ← index_array vec_x (obj_bnodes self);
     d ← vsub xb vec_bvalues;
     let penalty := (0.5 * obj_gamma self * vsum (vsquare d))%float in
     let c := mkCochainP0 (obj_S self) vec_x in
     let fk := mkCochainP0 (obj_S self) vec_y in
     func ← get_energy_func self;
     e ← func c fk;
     mret (e + penalty)%float,
     self).

(** The bound method [obj.total_energy], as it is handed to the optimizer and
    to [grad]. *)
Definition objective : Type := vec -> vec -> vec -> res float.
Definition jacobian : Type := vec -> vec -> vec -> res vec.

Definition bound_total_energy (obj : ObjFunction) : objective :=
  fun vec_x vec_y vec_bvalues => fst (total_energy vec_x vec_y vec_bvalues obj).

(** ** Python and DEAP operations on strings and trees *)

(** [s.count(sub)]: the number of non-overlapping occurrences of [sub] in
    [s], scanning from the left; the empty string occurs [len(s) + 1] times.
    [skip] is the number of characters still covered by the last match. *)
Fixpoint count_from (sub s : string) (skip : nat) : nat :=
  match s with
  | EmptyString => 0
  | String _ s' =>
      match skip with
      | S k => count_from sub s' k
      | O =>
          if String.prefix sub s
          then S (count_from sub s' (String.length sub - 1))
          else count_from sub s' 0
      end
  end.

Definition str_count (s sub : string) : nat :=
  match sub with
  | EmptyString => S (String.length s)
  | _ => count_from sub s 0
  end.

(** [max(l)] of a list of integers; [ValueError] on the empty list. *)
Definition py_max (l : list nat) : res nat :=
  match l with
  | [] => Raise ValueError
  | n :: l' => Ok (foldl Nat.max n l')
  end.

(** [Primitive.format] and [Terminal.format]. *)
Definition format (n : node) (args : list string) : string :=
  match n with
  | Primitive name _ => (name +:+ "(" +:+ String.concat ", " args +:+ ")")%string
  | Terminal text => text
  end.

(** The inner [while] of [PrimitiveTree.__str__]: while the entry on top of
    the stack has all its arguments, format it and hand the text to the entry
    below.  The head of the list is the top of the stack; each round pops one
    entry, so the stack's length bounds the rounds. *)
Fixpoint str_unwind (fuel : nat) (stack : list (node * list string)) (text : string)
  : list (node * list string) * string :=
  match fuel, stack with
  | S fuel', (prim, args) :: rest =>
      if decide (length args = node_arity prim) then
        let text := format prim args in
        match rest with
        | [] => ([], text)
        | (p, a) :: rest' => str_unwind fuel' ((p, a ++ [text]) :: rest') text
        end
      else (stack, text)
  | _, _ => (stack, text)
  end.

(** [str(individual)] *)
Definition PrimitiveTree_str (individual : PrimitiveTree) : string :=
  snd (foldl (fun '(stack, text) nd =>
                str_unwind (S (length stack)) ((nd, []) :: stack) text)
             ([], EmptyString) individual).

(** [individual.height]: the depth of the deepest node.  [stack.pop()] on an
    empty stack (nodes after a complete tree) raises. *)
Fixpoint height_loop (individual : PrimitiveTree) (stack : list nat) (max_depth : nat)
  : res nat :=
  match individual with
  | [] => Ok max_depth
  | elem :: rest =>
      match stack with
      | [] => Raise IndexError
      | depth :: stack' =>
          height_loop rest (replicate (node_arity elem) (S depth) ++ stack')
                      (Nat.max max_depth depth)
      end
  end.

Definition height (individual : PrimitiveTree) : res nat := height_loop individual [0] 0.

(** ** The toolbox and the optimizer's result *)

Record Toolbox : Type := { compile : PrimitiveTree -> res energy }.

(** [scipy.optimize.OptimizeResult], the fields of interest. *)
Record OptimizeResult : Type := mkOptimizeResult {
  opt_x : vec;
  opt_success : bool;
  opt_nit : nat
}.

(** [minimize(fun, x0, args, method="L-BFGS-B", jac)] *)
Definition optimizer : Type :=
  objective -> vec -> vec * vec -> jacobian -> res OptimizeResult.

(** L-BFGS-B's stopping test on the gradient when there are no bounds: the
    largest entry, in absolute value, is at most [gtol] (SciPy's default). *)
Definition gtol : float := 1e-5%float.

Definition max_abs (g : vec) : float :=
  foldl (fun m t => if (m <? PrimFloat.abs t)%float then PrimFloat.abs t else m) 0%float g.

Definition stationary (g : vec) : bool := (max_abs g <=? gtol)%float.

(** Values of the configuration dictionary [penalty]. *)
Inductive value : Type :=
  | VStr (s : string)
  | VNum (v : float).

(** [d[k]] *)
Definition getitem (d : gmap string value) (k : string) : res value :=
  match d !! k with
  | Some v => Ok v
  | None => Raise (KeyError k)
  end.

(** [v == s] for a string literal [s]. *)
Definition value_is (v : value) (s : string) : bool :=
  match v with
  | VStr t => bool_decide (t = s)
  | VNum _ => false
  end.

(** [1]-tuples. *)
Inductive tuple1 (A : Type) : Type := Tuple1 (a : A).
Arguments Tuple1 {A} a.

(** ** eval_MSE and eval_fitness *)

Section Pipeline.

(** [scipy.optimize.minimize] and [jit(grad(.))]. *)
Variable minimize : optimizer.
Variable grad : objective -> jacobian.
(** The module-level list [primitives_strings]. *)
Variable primitives_strings : list string.

(** The [for i, vec_y in enumerate(y)] loop of [eval_MSE], from sample [i]
    on, with the running [total_err] and [best_sols]. *)
Fixpoint eval_MSE_loop (obj : ObjFunction) (jac : jacobian) (X bvalues : matrix)
    (u_0 : CochainP0) (return_best_sol : bool)
    (i : nat) (y : list vec) (total_err : float) (best_sols : list vec)
  : res (float * list vec) :=
  match y with
  | [] => Ok (total_err, best_sols)
  | vec_y :: y' =>
      vec_bvalues ← row bvalues i;
      r ← minimize (bound_total_energy obj) (coeffs u_0) (vec_y, vec_bvalues) jac;
      let x := opt_x r in
      let best_sols := if return_best_sol then best_sols ++ [x] else best_sols in
      Xi ← row X i;
      d ← vsub x Xi;
      let current_err := (norm d * norm d)%float in
      let current_err :=
        if (100 <? current_err)%float || PrimFloat.is_nan current_err
        then 100%float else current_err in
      eval_MSE_loop obj jac X bvalues u_0 return_best_sol (S i) y'
                    (total_err + current_err)%float best_sols
  end.

(** The instance [eval_MSE] creates: [ObjFunction(S, bnodes, gamma)] followed
    by [set_energy_func(energy_func, individual)]. *)
Definition make_obj (mesh : SimplicialComplex) (bnodes : list nat) (gamma : float)
    (energy_func : energy) (individual : PrimitiveTree) : ObjFunction :=
  snd (set_energy_func energy_func individual (ObjFunction_init mesh bnodes gamma)).

Definition eval_MSE (individual : PrimitiveTree) (X y bvalues : matrix)
    (mesh : SimplicialComplex) (bnodes : list nat) (gamma : float) (u_0 : CochainP0)
    (toolbox : Toolbox) (return_best_sol : bool)
  : res (if return_best_sol then list vec else float) :=
  energy_func ← compile toolbox individual;
  let obj := make_obj mesh bnodes gamma energy_func individual in
  let jac := grad (bound_total_energy obj) in
  acc ← eval_MSE_loop obj jac X bvalues u_0 return_best_sol 0 y 0%float [];
  let '(total_err, best_sols) := acc in
  (if return_best_sol as b return res (if b then list vec else float)
   then Ok best_sols
   else if decide (length X = 0) then Raise ZeroDivisionError
        else Ok (total_err * (1 / float_of_nat (length X)))%float).

Definition eval_fitness (individual : PrimitiveTree) (X y bvalues : matrix)
    (mesh : SimplicialComplex) (bnodes : list nat) (gamma : float) (u_0 : CochainP0)
    (penalty : gmap string value) (toolbox : Toolbox)
  : res (tuple1 float) :=
  total_err ← eval_MSE individual X y bvalues mesh bnodes gamma u_0 toolbox false;
  method_ ← getitem penalty "method";
  if value_is method_ "primitive" then
    let indstr := PrimitiveTree_str individual in
    reg_param ← getitem penalty "reg_param";
    m ← py_max (map (fun s => str_count indstr s) primitives_strings);
    match reg_param with
    | VNum c => Ok (Tuple1 (total_err + c * float_of_nat m)%float)
    | VStr _ => Raise TypeError
    end
  else
    method_ ← getitem penalty "method";
    if value_is method_ "length" then
      reg_param ← getitem penalty "reg_param";
      match reg_param with
      | VNum c => Ok (Tuple1 (total_err + c * float_of_nat (length individual))%float)
      | VStr _ => Raise TypeError
      end
    else Ok (Tuple1 total_err).

End Pipeline.

(** ** Variation under a height limit (deap.gp.staticLimit) *)

(** Python's global [random] generator, as the sequence of raw draws it will
    deliver from now on. *)
Definition rng : Type := nat -> nat.

(** [random.choice(seq)]: [seq[randbelow(len(seq))]]. *)
Definition random_choice {A} (seq : list A) (r : rng) : res A * rng :=
  match seq !! (r 0 `mod` length seq) with
  | Some a => (Ok a, fun k => r (S k))
  | None => (Raise IndexError, r)
  end.

(** A variation operator ([toolbox.mate], [toolbox.mutate]): from the
    individuals it is given to the individuals it returns. *)
Definition variation : Type := list PrimitiveTree -> rng -> res (list PrimitiveTree) * rng.

(** The [for i, ind in enumerate(new_inds)] loop of the wrapper. *)
Fixpoint staticLimit_loop (key : PrimitiveTree -> res nat) (max_value : nat)
    (keep_inds new_inds : list PrimitiveTree) (r : rng)
  : res (list PrimitiveTree) * rng :=
  match new_inds with
  | [] => (Ok [], r)
  | ind :: rest =>
      match key ind with
      | Raise e => (Raise e, r)
      | Ok k =>
          if decide (max_value < k) then
            match random_choice keep_inds r with
            | (Raise e, r') => (Raise e, r')
            | (Ok kept, r') =>
                let '(out, r'') := staticLimit_loop key max_value keep_inds rest r' in
                (cons kept <$> out, r'')
            end
          else
            let '(out, r') := staticLimit_loop key max_value keep_inds rest r in
            (cons ind <$> out, r')
      end
  end.

(** [staticLimit(key, max_value)(func)]: the wrapper keeps copies of its
    arguments, calls [func], and replaces every result over the limit. *)
Definition staticLimit (key : PrimitiveTree -> res nat) (max_value : nat)
    (func : variation) : variation :=
  fun args r =>
    let keep_inds := args in
    match func args r with
    | (Raise e, r') => (Raise e, r')
    | (Ok new_inds, r') => staticLimit_loop key max_value keep_inds new_inds r'
    end.

(** [toolbox.decorate("mate", gp.staticLimit(key=attrgetter("height"),
    max_value=17))], and the same for ["mutate"]. *)
Definition max_height : nat := 17.
Definition decorate (func : variation) : variation := staticLimit height max_height func.

(** ** stgp_poisson: what is built before the evolutionary run starts *)

(** NumPy's global generator, as the sequence of uniform draws in [0, 1) it
    will deliver from now on.  [np.random.rand(n)] takes the next [n]. *)
Definition np_random : Type := nat -> float.

Definition np_random_rand (n : nat) (g : np_random) : vec * np_random :=
  (map g (seq 0 n), fun k => g (n + k)).

(** What [d.generate_complex] and [d.load_dataset] deliver. *)
Record Data : Type := {
  data_S : SimplicialComplex;
  data_bnodes : list nat;
  X_train : matrix; X_val : matrix; X_test : matrix;
  y_train : matrix; y_val : matrix; y_test : matrix
}.

(** The entries of [config_file] read by the fitness functions and the
    keyword arguments of [GPproblem.run] taken from it. *)
Record Config : Type := {
  cfg_penalty : gmap string value;
  cfg_n_splits : nat
}.

(** The keyword arguments of the call [GPproblem.run(...)]: the seed handed
    to the run, for which the program writes [seed=None], and the number of
    splits. *)
Record RunArgs : Type := {
  run_seed : option nat;
  run_n_splits : nat
}.

(** [X[:, bnodes]], row by row.  (An array without rows has no row to
    check the indices against here.) *)
Fixpoint columns (X : matrix) (bnodes : list nat) : res matrix :=
  match X with
  | [] => Ok []
  | r :: X' => b ← index_array r bnodes; bs ← columns X' bnodes; mret (b :: bs)
  end.

Record Setup : Type := {
  setup_gamma : float;
  setup_u_0 : CochainP0;
  evaluate_train : PrimitiveTree -> res (tuple1 float);
  evaluate_val_fit : PrimitiveTree -> res (tuple1 float);
  evaluate_val_MSE : PrimitiveTree -> res float;
  setup_run : RunArgs
}.

(** The data flow of [stgp_poisson] from the loaded data to the call of the
    run: the boundary values (lines 187-189), [gamma] and the initial guess
    (lines 192-196), the three evaluation functions registered on the toolbox
    (lines 264-295) and the keyword arguments of [GPproblem.run] (lines
    319-325).  Of the configuration it reads the penalty dictionary and the
    number of splits; the other configuration reads and the registration of
    the variation operators (lines 206-243) are not part of it, so [Ok] here
    says that these steps went through, not that everything before the run
    did. *)
Definition stgp_poisson_setup (minimize : optimizer) (grad : objective -> jacobian)
    (primitives_strings : list string) (toolbox : Toolbox) (data : Data)
    (config_file : Config) (g : np_random) : res Setup * np_random :=
  let mesh := data_S data in
  let bnodes := data_bnodes data in
  match columns (X_train data) bnodes with
  | Raise e => (Raise e, g)
  | Ok bvalues_train =>
  match columns (X_val data) bnodes with
  | Raise e => (Raise e, g)
  | Ok bvalues_val =>
  match columns (X_test data) bnodes with
  | Raise e => (Raise e, g)
  | Ok bvalues_test =>
      let gamma := 1000%float in
      let '(draws, g') := np_random_rand (num_nodes mesh) g in
      let u_0_vec := map (fun t => (0.01 * t)%float) draws in
      let u_0 := mkCochainP0 mesh u_0_vec in
      let penalty := cfg_penalty config_file in
      (Ok {| setup_gamma := gamma;
             setup_u_0 := u_0;
             evaluate_train := fun individual =>
               eval_fitness minimize grad primitives_strings individual
                 (X_train data) (y_train data) bvalues_train mesh bnodes gamma u_0
                 penalty toolbox;
             evaluate_val_fit := fun individual =>
               eval_fitness minimize grad primitives_strings individual
                 (X_val data) (y_val data) bvalues_val mesh bnodes gamma u_0
                 penalty toolbox;
             evaluate_val_MSE := fun individual =>
               eval_MSE minimize grad individual
                 (X_val data) (y_val data) bvalues_val mesh bnodes gamma u_0
                 toolbox false;
             setup_run := {| run_seed := None;
                             run_n_splits := cfg_n_splits config_file |} |},
       g')
  end end end.

(** ** plot_sol and the test report of stgp_poisson *)

(** A call [axes[r, c].tricontourf(triang, values, ...)]. *)
Inductive plot_call (T : Type) : Type :=
  | tricontourf (ax : nat * nat) (triang : T) (values : vec).
Arguments tricontourf {T} ax triang values.

Section Reporting.

Variable minimize : optimizer.
Variable grad : objective -> jacobian.
(** [matplotlib.tri.Triangulation] *)
Context {T : Type}.

(** The [for i in range(0, 3)] loop of [plot_sol]: the solved field on the
    upper row, the target on the lower row. *)
Fixpoint plot_sol_loop (u X : matrix) (triang : T) (cols : list nat)
    (drawn : list (plot_call T)) : res (list (plot_call T)) :=
  match cols with
  | [] => Ok drawn
  | i :: cols' =>
      ui ← row u i;
      let drawn := drawn ++ [tricontourf (0, i) triang ui] in
      Xi ← row X i;
      plot_sol_loop u X triang cols' (drawn ++ [tricontourf (1, i) triang Xi])
  end.

(** [plot_sol], as the sequence of contour plots it draws. *)
Definition plot_sol (ind : PrimitiveTree) (X y bvalues : matrix)
    (mesh : SimplicialComplex) (bnodes : list nat) (gamma : float) (u_0 : CochainP0)
    (triang : T) (toolbox : Toolbox) : res (list (plot_call T)) :=
  u ← eval_MSE minimize grad ind X y bvalues mesh bnodes gamma u_0 toolbox true;
  plot_sol_loop u X triang (seq 0 3) [].

(** The [for i, sol in enumerate(best_sols)] loop at the end of
    [stgp_poisson], as the sequence of [np.save(file, array)] calls. *)
Fixpoint save_loop (i : nat) (best_sols : list vec) (X_test : matrix)
    (saved : list (string * vec)) : res (list (string * vec)) :=
  match best_sols with
  | [] => Ok saved
  | sol :: rest =>
      let saved := saved ++ [("best_sol_test_" +:+ pretty i +:+ ".npy", sol)] in
      Xi ← row X_test i;
      save_loop (S i) rest X_test
                (saved ++ [("true_sol_test_" +:+ pretty i +:+ ".npy", Xi)])
  end.

(** What [stgp_poisson] computes from the best individual once the run is
    over: the test score it prints and the arrays it saves per test sample. *)
Definition test_report (best : PrimitiveTree) (X_test y_test bvalues_test : matrix)
    (mesh : SimplicialComplex) (bnodes : list nat) (gamma : float) (u_0 : CochainP0)
    (toolbox : Toolbox) : res (float * list (string * vec)) :=
  score_test ← eval_MSE minimize grad best X_test y_test bvalues_test mesh bnodes
                        gamma u_0 toolbox false;
  best_sols ← eval_MSE minimize grad best X_test y_test bvalues_test mesh bnodes
                       gamma u_0 toolbox true;
  saved ← save_loop 0 best_sols X_test [];
  mret (score_test, saved).

End Reporting.

(** ** A small gradient-based optimizer and a small toolbox

    They stand where SciPy's L-BFGS-B, JAX's gradient and DEAP's compiler
    stand in the application, for evaluating the pipeline on concrete data:
    steepest descent with a backtracking line search, started by evaluating
    the objective at [x0] and stopped, like L-BFGS-B, as soon as the largest
    gradient entry is at most [gtol]. *)

Module Demo.

Definition step (t : float) (g x : vec) : vec :=
  imap (fun i xi => (xi - t * default 0 (g !! i))%float) x.

Fixpoint backtrack (fuel : nat) (f : vec -> res float) (x : vec) (fx : float)
    (g : vec) (t : float) : res (option (vec * float)) :=
  match fuel with
  | O => Ok None
  | S fuel' =>
      let x' := step t g x in
      fx' ← f x';
      if (fx' <=? fx - 1e-4 * t * dot g g)%float then Ok (Some (x', fx'))
      else backtrack fuel' f x fx g (t / 4)%float
  end.

Fixpoint descend (maxiter : nat) (f : vec -> res float) (j : vec -> res vec)
    (x : vec) (fx : float) (nit : nat) : res OptimizeResult :=
  match maxiter with
  | O => Ok (mkOptimizeResult x false nit)
  | S maxiter' =>
      g ← j x;
      if stationary g then Ok (mkOptimizeResult x true nit)
      else
        s ← backtrack 30 f x fx g 1%float;
        match s with
        | None => Ok (mkOptimizeResult x false nit)
        | Some (x', fx') => descend maxiter' f j x' fx' (S nit)
        end
  end.

Definition minimize : optimizer :=
  fun f x0 args j =>
    fx ← f x0 args.1 args.2;
    descend 50 (fun x => f x args.1 args.2) (fun x => j x args.1 args.2) x0 fx 0.

(** The gradient, with respect to [vec_x], of [total_energy] for an energy
    functional that is constant: [gamma * (vec_x[b] - vec_bvalues[k])] added
    at each boundary node [b], zero elsewhere. *)
Fixpoint scatter_add (g : vec) (idx : list nat) (v : vec) : vec :=
  match idx, v with
  | i :: idx', t :: v' =>
      scatter_add (alter (fun old => (old + t)%float) i g) idx' v'
  | _, _ => g
  end.

Definition grad_constant_energy (bnodes : list nat) (gamma : float)
  : objective -> jacobian :=
  fun _ vec_x _ vec_bvalues =>
    xb ← index_array vec_x bnodes;
    d ← vsub xb vec_bvalues;
    mret (scatter_add (map (fun _ => 0%float) vec_x) bnodes
                      (map (fun t => (gamma * t)%float) d)).

(** A compiler for three expressions over the terminals [u] (the candidate
    field) and [fk] (the sample input). *)
Definition inner (a b : vec) : res float :=
  if decide (length a = length b) then Ok (dot a b) else Raise ValueError.

Definition compile (individual : PrimitiveTree) : res energy :=
  match individual with
  | [Terminal "0."] => Ok (fun _ _ => Ok 0%float)
  | [Primitive "InnP0" 2; Terminal "u"; Terminal "fk"] =>
      Ok (fun c fk => inner (coeffs c) (coeffs fk))
  | [Primitive "Log" 1; Terminal "u"] => Ok (fun _ _ => Raise TypeError)
  | _ => Raise (EvalError "name is not defined")
  end.

Definition toolbox : Toolbox := Build_Toolbox compile.

Definition zero : PrimitiveTree := [Terminal "0."].
Definition ill_typed : PrimitiveTree := [Primitive "Log" 1; Terminal "u"].
Definition inner_u_fk : PrimitiveTree := [Primitive "InnP0" 2; Terminal "u"; Terminal "fk"].

(** A mesh of two nodes, the first on the boundary, and three samples. *)
Definition mesh : SimplicialComplex := {| num_nodes := 2 |}.
Definition bnodes : list nat := [0].
Definition gamma : float := 1000%float.
Definition u_0 : CochainP0 := mkCochainP0 mesh [0.005; 0.0025]%float.
Definition y3 : matrix := [[0; 0]; [0; 0]; [0; 0]]%float.

(** Targets whose boundary value differs from the initial guess. *)
Definition X_far : matrix := [[1; 2]; [1; 0.5]; [1; 20]]%float.
Definition bvalues_far : matrix := [[1]; [1]; [1]]%float.

(** Targets whose boundary value is the initial guess's. *)
Definition X_near : matrix := [[0.005; 2]; [0.005; 0.5]; [0.005; 20]]%float.
Definition bvalues_near : matrix := [[0.005]; [0.005]; [0.005]]%float.

(** Sample inputs of the wrong length for [InnP0(u, fk)]. *)
Definition y_short : matrix := [[0]; [0]; [0]]%float.

Definition grad : objective -> jacobian := grad_constant_energy bnodes gamma.

Definition primitives_strings : list string := ["InnP0"; "Log"; "AddF"].

Definition penalty_length : gmap string value :=
  <["method" := VStr "length"]> (<["reg_param" := VNum 0.1%float]> ∅).
Definition penalty_primitive : gmap string value :=
  <["method" := VStr "primitive"]> (<["reg_param" := VNum 0.1%float]> ∅).
Definition penalty_typo : gmap string value :=
  <["method" := VStr "lenght"]> ∅.

(** The results of the inner solves on a partition. *)
Definition solve_all (obj : ObjFunction) (x0 : vec) (y bvalues : matrix)
  : list OptimizeResult :=
  omap (fun s => match minimize (bound_total_energy obj) x0 s
                                (grad (bound_total_energy obj)) with
                 | Ok r => Some r
                 | Raise _ => None
                 end) (zip y bvalues).

Definition obj_zero : ObjFunction := make_obj mesh bnodes gamma (fun _ _ => Ok 0%float) zero.

(** Chains of unary primitives, and a crossover that exchanges the tails of
    two chains at fixed points. *)
Definition chain (name leaf : string) (n : nat) : PrimitiveTree :=
  replicate n (Primitive name 1) ++ [Terminal leaf].

Definition cx_tails (i j : nat) : variation :=
  fun args r =>
    match args with
    | [ind1; ind2] => (Ok [take i ind1 ++ drop j ind2; take j ind2 ++ drop i ind1], r)
    | _ => (Raise TypeError, r)
    end.

(** A mutation that grows the individual by [n] levels at the root. *)
Definition mut_grow (n : nat) : variation :=
  fun args r =>
    match args with
    | [ind] => (Ok [replicate n (Primitive "Log" 1) ++ ind], r)
    | _ => (Raise TypeError, r)
    end.

Definition parent1 : PrimitiveTree := chain "SinF" "u" 10.
Definition parent2 : PrimitiveTree := chain "CosF" "fk" 10.

(** Two runs of the same configuration on the same data. *)
Definition data : Data :=
  {| data_S := mesh; data_bnodes := bnodes;
     X_train := X_far; X_val := X_far; X_test := X_far;
     y_train := y3; y_val := y3; y_test := y3 |}.
Definition config_file : Config := {| cfg_penalty := penalty_length; cfg_n_splits := 1 |}.

Definition draws1 : np_random := fun _ => 0.25%float.


Definition setup (g : np_random) : res Setup :=
  fst (stgp_poisson_setup minimize grad primitives_strings toolbox data config_file g).

(** The training fitness of an individual in a run. *)
Definition train_fitness (g : np_random) (individual : PrimitiveTree) : res (tuple1 float) :=
  setup g ≫= fun s => evaluate_train s individual.

(** The partition error of [inner_u_fk] on the far targets. *)
Definition total_err_far : float :=
  Eval vm_compute in
    match eval_MSE minimize grad inner_u_fk X_far y3 bvalues_far mesh bnodes gamma u_0
                   toolbox false with
    | Ok v => v
    | Raise _ => nan
    end.

(** Tests that tell two computed results apart. *)
Definition same_vec (a b : vec) : bool :=
  bool_decide (length a = length b) && forallb (fun p => (p.1 =? p.2)%float) (zip a b).

Definition same_fields (a b : res (list vec)) : bool :=
  match a, b with
  | Ok u, Ok v => bool_decide (length u = length v) && forallb (fun p => same_vec p.1 p.2) (zip u v)
  | _, _ => false
  end.

Definition same_float (a b : res float) : bool :=
  match a, b with
  | Ok u, Ok v => (u =? v)%float
  | _, _ => false
  end.



End Demo.

(** ** The specification's quantities *)

(** Σ over the boundary nodes of (candidate_field[node] − boundary value)²,
    paired in order. *)
Definition boundary_mismatch (vec_x : vec) (bnodes : list nat) (vec_bvalues : vec) : float :=
  foldl (fun acc p => let d := (default 0 (vec_x !! p.1) - p.2)%float in (acc + d * d)%float)
        0%float (zip bnodes vec_bvalues).

(** energy + 0.5·γ·Σ(candidate_field[boundary_nodes] − boundary_values)² *)
Definition penalized_energy (gamma : float) (bnodes : list nat) (e : float)
    (vec_x vec_bvalues : vec) : float :=
  (e + 0.5 * gamma * boundary_mismatch vec_x bnodes vec_bvalues)%float.

(** The squared Euclidean distance between two fields. *)
Definition squared_distance (a b : vec) : float :=
  let dist := PrimFloat.sqrt (vsum (zip_with (fun s t => ((s - t) * (s - t))%float) a b)) in
  (dist * dist)%float.

(** An error that is NaN or exceeds 100 is replaced by 100. *)
Definition clamp (err : float) : float :=
  if PrimFloat.is_nan err then 100%float
  else if (100 <? err)%float then 100%float
  else err.

(** The mean of a list of errors: their sum scaled by one over their number. *)
Definition mean (errs : list float) : float :=
  (vsum errs * (1 / float_of_nat (length errs)))%float.

(** The largest number of occurrences of one of [names] in [text]. *)
Definition max_occurrences (text : string) (names : list string) : nat :=
  max_list (map (str_count text) names).

(** An individual whose height is defined and within the limit. *)
Definition within_limit (t : PrimitiveTree) : Prop :=
  exists h, height t = Ok h /\ h <= max_height.

(** ** Properties of the array operations *)

Lemma index_array_in_range (a : vec) (idx : list nat) :
  Forall (fun i => i < length a) idx ->
  index_array a idx = Ok (map (fun i => default 0%float (a !! i)) idx).
Proof.
  induction 1 as [|i idx Hi _ IH]; [done|].
  destruct (lookup_lt_is_Some_2 a i Hi) as [v Hv].
  cbn [index_array map]. rewrite Hv, IH. reflexivity.
Qed.

Lemma vsub_same_length (a b : vec) :
  length a = length b -> vsub a b = Ok (zip_with PrimFloat.sub a b).
Proof. intros H. unfold vsub. rewrite decide_True by done. reflexivity. Qed.

Lemma foldl_squares_zip (vec_x : vec) (bnodes : list nat) (vec_bvalues : vec) (acc : float) :
  foldl PrimFloat.add acc
        (vsquare (zip_with PrimFloat.sub
                    (map (fun i => default 0%float (vec_x !! i)) bnodes) vec_bvalues)) =
  foldl (fun acc p => let d := (default 0 (vec_x !! p.1) - p.2)%float in (acc + d * d)%float)
        acc (zip bnodes vec_bvalues).
Proof.
  revert vec_bvalues acc.
  induction bnodes as [|b bnodes IH]; intros [|v vs] acc; simpl; try reflexivity.
  apply IH.
Qed.

Lemma squared_distance_norm (a b d : vec) :
  vsub a b = Ok d -> length a = length b ->
  (norm d * norm d)%float = squared_distance a b.
Proof.
  intros Hd Hlen. rewrite vsub_same_length in Hd by done.
  injection Hd as <-. unfold squared_distance, norm, dot.
  assert (zip_with PrimFloat.mul (zip_with PrimFloat.sub a b) (zip_with PrimFloat.sub a b)
          = zip_with (fun s t => ((s - t) * (s - t))%float) a b) as ->; [|reflexivity].
  clear Hlen. revert b. induction a as [|s a IH]; intros [|t b]; simpl; try reflexivity.
  f_equal. apply IH.
Qed.

Lemma clamp_code (current_err : float) :
  (if (100 <? current_err)%float || PrimFloat.is_nan current_err
   then 100%float else current_err) = clamp current_err.
Proof.
  unfold clamp. destruct (100 <? current_err)%float, (PrimFloat.is_nan current_err); reflexivity.
Qed.

(** ** ObjFunction.total_energy *)

Lemma total_energy_value (self : ObjFunction) (func : energy)
    (vec_x vec_y vec_bvalues : vec) :
  obj_energy_func self = Some func ->
  Forall (fun b => b < length vec_x) (obj_bnodes self) ->
  length vec_bvalues = length (obj_bnodes self) ->
  total_energy vec_x vec_y vec_bvalues self =
    ((fun e => penalized_energy (obj_gamma self) (obj_bnodes self) e vec_x vec_bvalues)
       <$> func (mkCochainP0 (obj_S self) vec_x) (mkCochainP0 (obj_S self) vec_y),
     self).
Proof.
  intros Hf Hb Hlen. unfold total_energy, get_energy_func.
  rewrite (index_array_in_range _ _ Hb). simpl.
  rewrite vsub_same_length by (rewrite length_map; done). simpl.
  rewrite Hf. simpl. f_equal.
  destruct (func _ _) as [e|ex]; simpl; [|reflexivity].
  unfold mret, res_ret, penalized_energy, boundary_mismatch, vsum.
  rewrite foldl_squares_zip. reflexivity.
Qed.

(** C2. For every candidate field, sample input and boundary-value vector
    (one value per boundary node, every boundary node a node of the field),
    [total_energy] returns what the bound energy callable returns on the two
    cochains plus 0.5·γ·Σ over the boundary nodes of
    (vec_x[node] − boundary value)², nothing else, and leaves the instance
    as it found it. *)
Theorem total_energy_penalized (self : ObjFunction) (func : energy)
    (vec_x vec_y vec_bvalues : vec) :
  obj_energy_func self = Some func ->
  Forall (fun b => b < length vec_x) (obj_bnodes self) ->
  length vec_bvalues = length (obj_bnodes self) ->
  total_energy vec_x vec_y vec_bvalues self =
    ((fun e => penalized_energy (obj_gamma self) (obj_bnodes self) e vec_x vec_bvalues)
       <$> func (mkCochainP0 (obj_S self) vec_x) (mkCochainP0 (obj_S self) vec_y),
     self).
Proof. exact (total_energy_value self func vec_x vec_y vec_bvalues). Qed.

(** ** eval_MSE *)

Lemma bind_Ok {A B} (a : A) (k : A -> res B) : (Ok a ≫= k) = k a.
Proof. reflexivity. Qed.

Lemma bind_Raise {A B} (e : exn) (k : A -> res B) : (Raise e ≫= k) = Raise e.
Proof. reflexivity. Qed.

Lemma row_middle (a1 a2 : matrix) (r : vec) : row (a1 ++ r :: a2) (length a1) = Ok r.
Proof. unfold row. rewrite list_lookup_middle by done. reflexivity. Qed.

Section PipelineFacts.

Variable minimize : optimizer.
Variable grad : objective -> jacobian.
Variable primitives_strings : list string.

(** A partition on which every inner solve returns: targets [X], inputs [y]
    and boundary values [bvalues] have one row per sample, and for each
    sample the optimizer, started from [x0], returns a result whose field has
    as many entries as the sample's target. *)
Inductive solved (f : objective) (jac : jacobian) (x0 : vec)
  : matrix -> matrix -> matrix -> list OptimizeResult -> Prop :=
  | solved_nil : solved f jac x0 [] [] [] []
  | solved_cons t X vec_y y vec_bvalues bvalues r rs :
      minimize f x0 (vec_y, vec_bvalues) jac = Ok r ->
      length (opt_x r) = length t ->
      solved f jac x0 X y bvalues rs ->
      solved f jac x0 (t :: X) (vec_y :: y) (vec_bvalues :: bvalues) (r :: rs).

Lemma solved_length f jac x0 X y bvalues rs :
  solved f jac x0 X y bvalues rs ->
  length X = length rs /\ length y = length rs /\ length bvalues = length rs.
Proof. induction 1; simpl; intuition congruence. Qed.

(** The per-sample errors of the specification: the squared distance between
    each solved field and its target, clamped. *)
Definition clamped_errors (rs : list OptimizeResult) (X : matrix) : list float :=
  map clamp (zip_with (fun r t => squared_distance (opt_x r) t) rs X).

Lemma eval_MSE_loop_solved obj jac u_0 b X y bvalues rs :
  solved (bound_total_energy obj) jac (coeffs u_0) X y bvalues rs ->
  forall Xp bp total best, length bp = length Xp ->
  eval_MSE_loop minimize obj jac (Xp ++ X) (bp ++ bvalues) u_0 b (length Xp) y total best =
  Ok (foldl PrimFloat.add total (clamped_errors rs X),
      if b then best ++ map opt_x rs else best).
Proof.
  induction 1 as [|t X vy y vb bvalues r rs Hmin Hlen _ IH]; intros Xp bp total best Hp.
  - simpl. destruct b; rewrite ?app_nil_r; reflexivity.
  - cbn [eval_MSE_loop].
    rewrite <- Hp at 1. rewrite (row_middle bp bvalues vb), bind_Ok, Hmin, bind_Ok.
    rewrite (row_middle Xp X t), bind_Ok.
    rewrite (vsub_same_length _ _ Hlen), bind_Ok.
    rewrite clamp_code.
    rewrite (squared_distance_norm (opt_x r) t) by (by apply vsub_same_length || done).
    replace (S (length Xp)) with (length (Xp ++ [t])) by (rewrite length_app; simpl; lia).
    rewrite (cons_middle t Xp X), (cons_middle vb bp bvalues), !app_assoc.
    rewrite IH by (rewrite !length_app; simpl; lia).
    f_equal. f_equal.
    destruct b; [|reflexivity].
    rewrite <- app_assoc. reflexivity.
Qed.

Lemma eval_MSE_solved individual X y bvalues mesh bnodes gamma u_0 toolbox
    energy_func rs (b : bool) :
  compile toolbox individual = Ok energy_func ->
  (let obj := make_obj mesh bnodes gamma energy_func individual in
   solved (bound_total_energy obj) (grad (bound_total_energy obj)) (coeffs u_0)
          X y bvalues rs) ->
  eval_MSE minimize grad individual X y bvalues mesh bnodes gamma u_0 toolbox b =
  (if b as b return res (if b then list vec else float)
   then Ok (map opt_x rs)
   else if decide (length X = 0) then Raise ZeroDivisionError
        else Ok (vsum (clamped_errors rs X) * (1 / float_of_nat (length X)))%float).
Proof.
  intros Hc Hs. unfold eval_MSE. rewrite Hc, bind_Ok. cbv zeta.
  pose proof (eval_MSE_loop_solved _ _ u_0 b _ _ _ _ Hs [] [] 0%float [] eq_refl) as Hl.
  simpl in Hl. rewrite Hl, bind_Ok.
  destruct b; reflexivity.
Qed.

Lemma clamped_errors_length rs (X : matrix) :
  length X = length rs -> length (clamped_errors rs X) = length X.
Proof.
  intros H. unfold clamped_errors. rewrite length_map, length_zip_with. lia.
Qed.

(** A per-sample error that is NaN or exceeds 100 counts as exactly 100. *)
Lemma clamp_100 (err : float) :
  PrimFloat.is_nan err = true \/ (100 <? err)%float = true -> clamp err = 100%float.
Proof.
  unfold clamp. intros [H|H]; rewrite H; [reflexivity|].
  destruct (PrimFloat.is_nan err); reflexivity.
Qed.

Lemma eval_MSE_false_solved individual X y bvalues mesh bnodes gamma u_0 toolbox
    energy_func rs :
  compile toolbox individual = Ok energy_func ->
  (let obj := make_obj mesh bnodes gamma energy_func individual in
   solved (bound_total_energy obj) (grad (bound_total_energy obj)) (coeffs u_0)
          X y bvalues rs) ->
  X <> [] ->
  eval_MSE minimize grad individual X y bvalues mesh bnodes gamma u_0 toolbox false =
  Ok (mean (clamped_errors rs X)).
Proof.
  intros Hc Hs HX.
  rewrite (eval_MSE_solved _ _ _ _ _ _ _ _ _ _ _ false Hc Hs).
  destruct (solved_length _ _ _ _ _ _ _ Hs) as (HlX & _ & _).
  rewrite decide_False by (destruct X; [done | discriminate]).
  unfold mean. rewrite clamped_errors_length by done. reflexivity.
Qed.

(** C1. On a non-empty partition on which every inner solve returns,
    [eval_MSE] without per-sample output returns the mean, over all samples,
    of the squared Euclidean distance between the solved field and the
    target field, each distance that is NaN or exceeds 100 replaced by 100. *)
Theorem eval_MSE_mean_clamped individual X y bvalues mesh bnodes gamma u_0 toolbox
    energy_func rs :
  compile toolbox individual = Ok energy_func ->
  (let obj := make_obj mesh bnodes gamma energy_func individual in
   solved (bound_total_energy obj) (grad (bound_total_energy obj)) (coeffs u_0)
          X y bvalues rs) ->
  X <> [] ->
  eval_MSE minimize grad individual X y bvalues mesh bnodes gamma u_0 toolbox false =
  Ok (mean (map clamp (zip_with (fun r t => squared_distance (opt_x r) t) rs X))).
Proof.
  intros Hc Hs HX. exact (eval_MSE_false_solved _ _ _ _ _ _ _ _ _ _ _ Hc Hs HX).
Qed.

(** C6. With per-sample output, [eval_MSE] returns, sample by sample, the
    field of the result the optimizer reports when started from the
    coefficients of the one initial guess [u_0]; no earlier solution enters a
    later solve, and the reported field is returned whether or not the
    optimizer reports success. *)
Theorem eval_MSE_returns_reported_points individual X y bvalues mesh bnodes gamma u_0
    toolbox energy_func rs :
  compile toolbox individual = Ok energy_func ->
  (let obj := make_obj mesh bnodes gamma energy_func individual in
   solved (bound_total_energy obj) (grad (bound_total_energy obj)) (coeffs u_0)
          X y bvalues rs) ->
  eval_MSE minimize grad individual X y bvalues mesh bnodes gamma u_0 toolbox true =
  Ok (map opt_x rs).
Proof.
  intros Hc Hs.
  exact (eval_MSE_solved _ _ _ _ _ _ _ _ _ _ _ true Hc Hs).
Qed.

(** From row-wise hypotheses to [solved]. *)
Lemma solved_intro f jac x0 (P : OptimizeResult -> Prop) :
  forall (X y bvalues : matrix),
  length X = length y -> length bvalues = length y ->
  Forall2 (fun vec_y vec_bvalues =>
             exists r, minimize f x0 (vec_y, vec_bvalues) jac = Ok r /\
                       length (opt_x r) = length x0 /\ P r) y bvalues ->
  Forall (fun t => length t = length x0) X ->
  exists rs, solved f jac x0 X y bvalues rs /\ Forall P rs.
Proof.
  intros X y. revert X.
  induction y as [|vy y IH]; intros [|t X] [|vb bvalues] HX Hb Hs HXl;
    try discriminate.
  - exists []. split; constructor.
  - apply Forall2_cons_1 in Hs as [(r & Hr & Hl & HP) Hs].
    apply Forall_cons_1 in HXl as [Ht HXl].
    destruct (IH X bvalues) as (rs & Hrs & HPs); [simpl in *; lia ..|done|done|].
    exists (r :: rs). split; [|by constructor].
    constructor; [done|congruence|done].
Qed.

Lemma solved_lookup f jac x0 X y bvalues rs :
  solved f jac x0 X y bvalues rs ->
  forall i vec_y vec_bvalues,
    y !! i = Some vec_y -> bvalues !! i = Some vec_bvalues ->
    exists r, minimize f x0 (vec_y, vec_bvalues) jac = Ok r /\ rs !! i = Some r.
Proof.
  induction 1 as [|t X vy y vb bvalues r rs Hmin Hlen _ IH]; intros [|i] vy' vb' Hy Hb;
    simpl in *; try discriminate.
  - injection Hy as <-. injection Hb as <-. eauto.
  - eauto.
Qed.

(** The result of [minimize] has the shape of [x0]. *)
Definition keeps_shape : Prop :=
  forall f x0 args jac r, minimize f x0 args jac = Ok r -> length (opt_x r) = length x0.

(** C8. On a partition of n samples whose targets are fields on the mesh,
    with an initial guess on the mesh and every inner solve returning,
    [eval_MSE] with per-sample output returns a list of exactly n fields, the
    i-th being the field the optimizer reports for the i-th sample, each with
    as many entries as the mesh has nodes. *)
Theorem eval_MSE_best_sols_shape individual X y bvalues mesh bnodes gamma u_0 toolbox
    energy_func :
  keeps_shape ->
  compile toolbox individual = Ok energy_func ->
  length (coeffs u_0) = num_nodes mesh ->
  length X = length y -> length bvalues = length y ->
  Forall (fun t => length t = num_nodes mesh) X ->
  (let obj := make_obj mesh bnodes gamma energy_func individual in
   Forall2 (fun vec_y vec_bvalues =>
     is_Ok (minimize (bound_total_energy obj) (coeffs u_0) (vec_y, vec_bvalues)
                     (grad (bound_total_energy obj))) = true) y bvalues) ->
  exists best_sols,
    eval_MSE minimize grad individual X y bvalues mesh bnodes gamma u_0 toolbox true =
      Ok best_sols /\
    length best_sols = length y /\
    Forall (fun sol => length sol = num_nodes mesh) best_sols /\
    (let obj := make_obj mesh bnodes gamma energy_func individual in
     forall i vec_y vec_bvalues,
       y !! i = Some vec_y -> bvalues !! i = Some vec_bvalues ->
       exists r, minimize (bound_total_energy obj) (coeffs u_0) (vec_y, vec_bvalues)
                          (grad (bound_total_energy obj)) = Ok r /\
                 best_sols !! i = Some (opt_x r)).
Proof.
  intros Hshape Hc Hu HX Hb HXl Hok. cbv zeta in *.
  set (obj := make_obj mesh bnodes gamma energy_func individual) in *.
  destruct (solved_intro (bound_total_energy obj) (grad (bound_total_energy obj))
              (coeffs u_0) (fun _ => True) X y bvalues HX Hb) as (rs & Hs & _).
  { eapply Forall2_impl; [exact Hok|]. intros vy vb H. cbv beta in H.
    destruct (minimize _ _ _ _) as [r|e] eqn:Hr; [|discriminate].
    exists r. split; [reflexivity|]. split; [|exact I]. eapply Hshape, Hr. }
  { eapply Forall_impl; [exact HXl|]. intros t Ht. cbv beta in Ht. congruence. }
  exists (map opt_x rs).
  destruct (solved_length _ _ _ _ _ _ _ Hs) as (HlX & Hly & _).
  split; [exact (eval_MSE_solved _ _ _ _ _ _ _ _ _ _ _ true Hc Hs)|].
  split; [rewrite length_map; lia|].
  split.
  - apply Forall_forall. intros sol Hin. apply list_elem_of_fmap in Hin as (r & -> & Hin).
    apply list_elem_of_lookup in Hin as [i Hi].
    assert (is_Some (y !! i)) as [vy Hvy]
      by (apply lookup_lt_is_Some; rewrite Hly; eapply lookup_lt_Some, Hi).
    assert (is_Some (bvalues !! i)) as [vb Hvb]
      by (apply lookup_lt_is_Some; rewrite Hb, Hly; eapply lookup_lt_Some, Hi).
    destruct (solved_lookup _ _ _ _ _ _ _ Hs i vy vb Hvy Hvb) as (r' & Hr' & Hi').
    assert (r' = r) as -> by congruence.
    rewrite (Hshape _ _ _ _ _ Hr'). exact Hu.
  - intros i vy vb Hvy Hvb.
    destruct (solved_lookup _ _ _ _ _ _ _ Hs i vy vb Hvy Hvb) as (r & Hr & Hi).
    exists r. split; [done|]. rewrite list_lookup_fmap, Hi. reflexivity.
Qed.

(** [minimize] evaluates the objective at [x0] before anything else, and an
    exception raised there leaves [minimize] as it is. *)
Definition evaluates_start : Prop :=
  forall (f : objective) x0 args jac e,
    f x0 args.1 args.2 = Raise e -> minimize f x0 args jac = Raise e.

(** When the gradient at [x0] passes the stopping test, [minimize] returns
    [x0]. *)
Definition stops_at_stationary_start : Prop :=
  forall (f : objective) x0 args (jac : jacobian) v g,
    f x0 args.1 args.2 = Ok v ->
    jac x0 args.1 args.2 = Ok g ->
    stationary g = true ->
    exists r, minimize f x0 args jac = Ok r /\ opt_x r = x0.

Lemma eval_MSE_compile_raises individual X y bvalues mesh bnodes gamma u_0 toolbox e b :
  compile toolbox individual = Raise e ->
  eval_MSE minimize grad individual X y bvalues mesh bnodes gamma u_0 toolbox b = Raise e.
Proof. intros Hc. unfold eval_MSE. rewrite Hc. reflexivity. Qed.

Lemma eval_MSE_energy_raises individual X vec_y y vec_bvalues bvalues mesh bnodes gamma
    u_0 toolbox energy_func e b :
  evaluates_start ->
  compile toolbox individual = Ok energy_func ->
  Forall (fun n => n < length (coeffs u_0)) bnodes ->
  length vec_bvalues = length bnodes ->
  energy_func (mkCochainP0 mesh (coeffs u_0)) (mkCochainP0 mesh vec_y) = Raise e ->
  eval_MSE minimize grad individual X (vec_y :: y) (vec_bvalues :: bvalues)
           mesh bnodes gamma u_0 toolbox b = Raise e.
Proof.
  intros Hstart Hc Hb Hlen He. unfold eval_MSE. rewrite Hc, bind_Ok. cbv zeta.
  cbn [eval_MSE_loop].
  change (row (vec_bvalues :: bvalues) 0) with (Ok (A:=vec) vec_bvalues). rewrite bind_Ok.
  rewrite (Hstart _ _ _ _ e); [reflexivity|].
  cbn [fst snd]. unfold bound_total_energy.
  rewrite (total_energy_value _ energy_func) by done.
  cbn [fst make_obj set_energy_func ObjFunction_init snd obj_S]. rewrite He. reflexivity.
Qed.

(** C3, as the code has it. If the compiled energy callable raises when the
    objective is first evaluated (at the initial guess, on the first
    sample), the exception leaves [eval_MSE] and [eval_fitness] unchanged:
    no fitness value is produced, and nothing in the evaluation catches it. *)
Theorem eval_fitness_propagates individual X vec_y y vec_bvalues bvalues mesh bnodes
    gamma u_0 penalty toolbox energy_func e :
  evaluates_start ->
  compile toolbox individual = Ok energy_func ->
  Forall (fun n => n < length (coeffs u_0)) bnodes ->
  length vec_bvalues = length bnodes ->
  energy_func (mkCochainP0 mesh (coeffs u_0)) (mkCochainP0 mesh vec_y) = Raise e ->
  eval_fitness minimize grad primitives_strings individual X (vec_y :: y)
               (vec_bvalues :: bvalues) mesh bnodes gamma u_0 penalty toolbox = Raise e.
Proof.
  intros Hstart Hc Hb Hlen He. unfold eval_fitness.
  rewrite (eval_MSE_energy_raises _ _ _ _ _ _ _ _ _ _ _ _ e false Hstart Hc Hb Hlen He).
  reflexivity.
Qed.

Lemma make_obj_fields mesh bnodes gamma energy_func individual :
  obj_energy_func (make_obj mesh bnodes gamma energy_func individual) = Some energy_func /\
  obj_bnodes (make_obj mesh bnodes gamma energy_func individual) = bnodes /\
  obj_gamma (make_obj mesh bnodes gamma energy_func individual) = gamma /\
  obj_S (make_obj mesh bnodes gamma energy_func individual) = mesh.
Proof. repeat split. Qed.

Lemma map_opt_x_const (rs : list OptimizeResult) (x0 : vec) :
  Forall (fun r => opt_x r = x0) rs -> map opt_x rs = replicate (length rs) x0.
Proof. induction 1 as [|r rs Hr _ IH]; simpl; [done|]. by rewrite Hr, IH. Qed.

Lemma clamped_errors_const (rs : list OptimizeResult) (X : matrix) (x0 : vec) :
  Forall (fun r => opt_x r = x0) rs -> length X = length rs ->
  clamped_errors rs X = map (fun t => clamp (squared_distance x0 t)) X.
Proof.
  intros H. revert X. unfold clamped_errors.
  induction H as [|r rs Hr _ IH]; intros [|t X] HX; try discriminate; [done|].
  simpl. rewrite Hr. f_equal. apply IH. simpl in HX. lia.
Qed.

(** C5, as the code has it. For a dataset of 3 samples and an individual
    whose compiled energy functional is identically zero: if, for every
    sample, the gradient of the penalized objective at the initial guess
    passes the optimizer's stopping test, every inner solve returns the
    initial guess unchanged, and the aggregate error is the mean of the
    squared distances between the initial guess and the targets, each
    clamped to 100. *)
Theorem zero_energy_keeps_initial_guess individual X y bvalues mesh bnodes gamma u_0
    toolbox energy_func :
  stops_at_stationary_start ->
  compile toolbox individual = Ok energy_func ->
  (forall c fk, energy_func c fk = Ok 0%float) ->
  length X = 3 -> length y = 3 -> length bvalues = 3 ->
  Forall (fun n => n < length (coeffs u_0)) bnodes ->
  Forall (fun vec_bvalues => length vec_bvalues = length bnodes) bvalues ->
  Forall (fun t => length t = length (coeffs u_0)) X ->
  (let obj := make_obj mesh bnodes gamma energy_func individual in
   Forall2 (fun vec_y vec_bvalues =>
     exists g, grad (bound_total_energy obj) (coeffs u_0) vec_y vec_bvalues = Ok g /\
               stationary g = true) y bvalues) ->
  eval_MSE minimize grad individual X y bvalues mesh bnodes gamma u_0 toolbox true =
    Ok (replicate 3 (coeffs u_0)) /\
  eval_MSE minimize grad individual X y bvalues mesh bnodes gamma u_0 toolbox false =
    Ok (mean (map (fun t => clamp (squared_distance (coeffs u_0) t)) X)).
Proof.
  intros Hstop Hc Hzero HX Hy Hbv Hb Hbl HXl Hg. cbv zeta in Hg.
  set (obj := make_obj mesh bnodes gamma energy_func individual) in *.
  destruct (solved_intro (bound_total_energy obj) (grad (bound_total_energy obj))
              (coeffs u_0) (fun r => opt_x r = coeffs u_0) X y bvalues)
    as (rs & Hs & Hrs); [lia|lia| |done|].
  { apply Forall2_same_length_lookup_2; [lia|].
    intros i vy vb Hvy Hvb.
    destruct (Forall2_lookup_lr _ _ _ _ _ _ Hg Hvy Hvb) as (g & Hgr & Hst).
    pose proof (proj1 (Forall_lookup _ _) Hbl i vb Hvb) as Hlen.
    destruct (Hstop (bound_total_energy obj) (coeffs u_0) (vy, vb)
                (grad (bound_total_energy obj))
                (penalized_energy gamma bnodes 0 (coeffs u_0) vb) g) as (r & Hr & Hx).
    - cbn [fst snd]. unfold bound_total_energy.
      rewrite (total_energy_value obj energy_func) by done.
      cbn [fst]. rewrite Hzero. reflexivity.
    - exact Hgr.
    - exact Hst.
    - exists r. rewrite Hx. done. }
  destruct (solved_length _ _ _ _ _ _ _ Hs) as (HlX & _ & _).
  split.
  - rewrite (eval_MSE_solved _ _ _ _ _ _ _ _ _ _ _ true Hc Hs).
    rewrite (map_opt_x_const rs (coeffs u_0)) by done.
    replace (length rs) with 3 by lia. reflexivity.
  - rewrite (eval_MSE_false_solved _ _ _ _ _ _ _ _ _ _ _ Hc Hs)
      by (destruct X; [discriminate|done]).
    rewrite (clamped_errors_const rs X (coeffs u_0)) by done.
    reflexivity.
Qed.

(** ** eval_fitness *)

Lemma foldl_max_list (n : nat) (l : list nat) : foldl Nat.max n l = n `max` max_list l.
Proof.
  revert n. induction l as [|m l IH]; intros n; simpl; [lia|].
  rewrite IH. lia.
Qed.

Lemma py_max_max_list (l : list nat) : l <> [] -> py_max l = Ok (max_list l).
Proof.
  destruct l as [|n l]; [done|]. intros _. simpl. by rewrite foldl_max_list.
Qed.

Lemma getitem_lookup (d : gmap string value) (k : string) (v : value) :
  d !! k = Some v -> getitem d k = Ok v.
Proof. intros H. unfold getitem. by rewrite H. Qed.

Lemma value_is_other (v : value) (s : string) : v <> VStr s -> value_is v s = false.
Proof.
  destruct v as [t|c]; simpl; [|done]. intros H.
  apply bool_decide_eq_false. congruence.
Qed.

(** C4. Given the partition error and a numeric coefficient, [eval_fitness]
    returns a 1-tuple holding the partition error plus one penalty term: for
    method "primitive" the coefficient times the largest number of
    occurrences, in the individual's text, of one of the tracked primitive
    names; for "length" the coefficient times the number of nodes; for "none"
    no term at all. *)
Theorem eval_fitness_penalty individual X y bvalues mesh bnodes gamma u_0
    (penalty : gmap string value) toolbox total_err c :
  eval_MSE minimize grad individual X y bvalues mesh bnodes gamma u_0 toolbox false =
    Ok total_err ->
  penalty !! "reg_param" = Some (VNum c) ->
  primitives_strings <> [] ->
  let fitness :=
    eval_fitness minimize grad primitives_strings individual X y bvalues mesh bnodes
                 gamma u_0 penalty toolbox in
  (penalty !! "method" = Some (VStr "primitive") ->
   fitness = Ok (Tuple1 (total_err + c * float_of_nat
                   (max_occurrences (PrimitiveTree_str individual) primitives_strings))%float)) /\
  (penalty !! "method" = Some (VStr "length") ->
   fitness = Ok (Tuple1 (total_err + c * float_of_nat (length individual))%float)) /\
  (penalty !! "method" = Some (VStr "none") ->
   fitness = Ok (Tuple1 total_err)).
Proof.
  intros Herr Hreg Hprims fitness. subst fitness. unfold eval_fitness.
  rewrite Herr, bind_Ok.
  repeat split; intros Hm; rewrite !(getitem_lookup _ _ _ Hm), !bind_Ok; cbn [value_is].
  - rewrite bool_decide_eq_true_2 by done.
    rewrite (getitem_lookup _ _ _ Hreg), bind_Ok.
    rewrite py_max_max_list by (destruct primitives_strings; [done|discriminate]).
    reflexivity.
  - rewrite bool_decide_eq_false_2 by discriminate.
    rewrite bool_decide_eq_true_2 by done.
    rewrite (getitem_lookup _ _ _ Hreg), bind_Ok. reflexivity.
  - rewrite !bool_decide_eq_false_2 by discriminate. reflexivity.
Qed.

(** C10. Whatever the penalty dictionary holds under "method", as long as it
    is neither "primitive" nor "length", [eval_fitness] raises nothing of its
    own and returns the partition error unchanged, as a 1-tuple. *)
Theorem eval_fitness_unrecognized_method individual X y bvalues mesh bnodes gamma u_0
    (penalty : gmap string value) toolbox total_err method_ :
  eval_MSE minimize grad individual X y bvalues mesh bnodes gamma u_0 toolbox false =
    Ok total_err ->
  penalty !! "method" = Some method_ ->
  method_ <> VStr "primitive" ->
  method_ <> VStr "length" ->
  eval_fitness minimize grad primitives_strings individual X y bvalues mesh bnodes
               gamma u_0 penalty toolbox = Ok (Tuple1 total_err).
Proof.
  intros Herr Hm Hp Hl. unfold eval_fitness.
  rewrite Herr, bind_Ok, !(getitem_lookup _ _ _ Hm), !bind_Ok.
  rewrite (value_is_other _ _ Hp), (value_is_other _ _ Hl). reflexivity.
Qed.

End PipelineFacts.

(** On a partition without samples the mean is not defined and [eval_MSE]
    raises: [1/(X.shape[0])] divides by zero. *)
Lemma eval_MSE_empty_partition minimize grad individual mesh bnodes gamma u_0 toolbox
    energy_func :
  compile toolbox individual = Ok energy_func ->
  eval_MSE minimize grad individual [] [] [] mesh bnodes gamma u_0 toolbox false =
  Raise ZeroDivisionError.
Proof. intros Hc. unfold eval_MSE. rewrite Hc. reflexivity. Qed.

(** Only what the optimizer does when started from [u_0], and only the field
    of its result, reaches the outcome of [eval_MSE]: two optimizers whose
    results from [u_0] carry the same field cannot be told apart. *)
Lemma eval_MSE_loop_same_start (m1 m2 : optimizer) obj jac X bvalues u_0 b :
  (forall f args j, opt_x <$> m1 f (coeffs u_0) args j = opt_x <$> m2 f (coeffs u_0) args j) ->
  forall y i total best,
    eval_MSE_loop m1 obj jac X bvalues u_0 b i y total best =
    eval_MSE_loop m2 obj jac X bvalues u_0 b i y total best.
Proof.
  intros Hm. induction y as [|vec_y y IH]; intros i total best; [reflexivity|].
  cbn [eval_MSE_loop].
  destruct (row bvalues i) as [vb|e]; [rewrite !bind_Ok|reflexivity].
  specialize (Hm (bound_total_energy obj) (vec_y, vb) jac).
  destruct (m1 _ _ _ _) as [r1|e1], (m2 _ _ _ _) as [r2|e2];
    cbn in Hm; try discriminate.
  - rewrite !bind_Ok. injection Hm as ->.
    destruct (row X i) as [Xi|e]; [rewrite !bind_Ok|reflexivity].
    destruct (vsub (opt_x r2) Xi) as [d|e]; [rewrite !bind_Ok|reflexivity].
    apply IH.
  - injection Hm as ->. reflexivity.
Qed.

Lemma eval_MSE_same_start (m1 m2 : optimizer) grad individual X y bvalues mesh bnodes
    gamma u_0 toolbox b :
  (forall f args j, opt_x <$> m1 f (coeffs u_0) args j = opt_x <$> m2 f (coeffs u_0) args j) ->
  eval_MSE m1 grad individual X y bvalues mesh bnodes gamma u_0 toolbox b =
  eval_MSE m2 grad individual X y bvalues mesh bnodes gamma u_0 toolbox b.
Proof.
  intros Hm. unfold eval_MSE.
  destruct (compile toolbox individual) as [energy_func|e]; [rewrite !bind_Ok|reflexivity].
  cbv zeta. rewrite (eval_MSE_loop_same_start m1 m2) by done. reflexivity.
Qed.

(** ** Variation under the height limit *)

Lemma random_choice_nonempty {A} (seq : list A) (r : rng) :
  seq <> [] -> exists a, random_choice seq r = (Ok a, fun k => r (S k)) /\ a ∈ seq.
Proof.
  intros Hne. unfold random_choice.
  assert (r 0 `mod` length seq < length seq) as Hlt.
  { apply Nat.mod_upper_bound. destruct seq; [done|simpl; lia]. }
  destruct (lookup_lt_is_Some_2 _ _ Hlt) as [a Ha]. rewrite Ha.
  exists a. split; [reflexivity|]. eapply list_elem_of_lookup_2, Ha.
Qed.

(** What the wrapper puts in the place of an offspring: the offspring itself
    when it is within the limit, otherwise one of the kept individuals. *)
Definition kept_or_replaced (keep_inds : list PrimitiveTree) (ind out : PrimitiveTree)
  : Prop :=
  (within_limit ind /\ out = ind) \/ (~ within_limit ind /\ out ∈ keep_inds).

Lemma staticLimit_loop_replaces keep_inds new_inds :
  keep_inds <> [] ->
  Forall (fun t => is_Ok (height t) = true) new_inds ->
  forall r, exists out r',
    staticLimit_loop height max_height keep_inds new_inds r = (Ok out, r') /\
    Forall2 (kept_or_replaced keep_inds) new_inds out.
Proof.
  intros Hne. induction 1 as [|ind rest Hh _ IH]; intros r.
  - exists [], r. split; [reflexivity|constructor].
  - cbn [staticLimit_loop].
    destruct (height ind) as [k|e] eqn:Hk; [|discriminate].
    destruct (decide (max_height < k)) as [Hgt|Hle].
    + destruct (random_choice_nonempty keep_inds r Hne) as (kept & -> & Hin).
      destruct (IH (fun k => r (S k))) as (out & r' & -> & Hout).
      exists (kept :: out), r'. split; [reflexivity|].
      constructor; [|done]. right. split; [|done].
      intros (h & Hh' & Hle). rewrite Hk in Hh'. injection Hh' as <-. lia.
    + destruct (IH r) as (out & r' & -> & Hout).
      exists (ind :: out), r'. split; [reflexivity|].
      constructor; [|done]. left. split; [|done].
      exists k. split; [done|lia].
Qed.

(** C7, as the code has it. When the wrapped operator returns offspring,
    the decorated operator returns, place by place, the offspring itself if
    its height is at most 17 and otherwise one of the individuals that were
    handed to the operator, drawn at random; with a single individual handed
    in (mutation) that is this individual.  So if every individual handed in
    is within the limit, every individual returned is. *)
Theorem decorate_replaces_by_some_parent (func : variation) args r new_inds r1 :
  func args r = (Ok new_inds, r1) ->
  args <> [] ->
  Forall (fun t => is_Ok (height t) = true) new_inds ->
  exists out r',
    decorate func args r = (Ok out, r') /\
    Forall2 (kept_or_replaced args) new_inds out /\
    (Forall within_limit args -> Forall within_limit out) /\
    (forall parent, args = [parent] ->
       Forall2 (fun ind o => (within_limit ind /\ o = ind) \/
                             (~ within_limit ind /\ o = parent)) new_inds out).
Proof.
  intros Hf Hne Hh. unfold decorate, staticLimit. rewrite Hf.
  destruct (staticLimit_loop_replaces args new_inds Hne Hh r1) as (out & r' & Hl & Hout).
  exists out, r'. split; [done|]. split; [done|]. split.
  - intros Hargs. apply Forall_forall. intros o Ho.
    apply list_elem_of_lookup in Ho as [i Hi].
    destruct (Forall2_lookup_r _ _ _ _ _ Hout Hi) as (ind & _ & [[Hw ->]|[_ Hin]]); [done|].
    eapply (proj1 (Forall_forall _ _) Hargs), Hin.
  - intros parent ->. eapply Forall2_impl; [exact Hout|].
    intros ind o [[Hw ->]|[Hw Hin]]; [by left|right].
    split; [done|]. by apply list_elem_of_singleton in Hin.
Qed.

(** ** The initial guess and the ambient generator *)



(** ** The demonstration optimizer meets what is assumed of [minimize] *)

Lemma neq_by_test {A} (test : A -> A -> bool) (a b : A) :
  test a a = true -> test a b = false -> a <> b.
Proof. intros Ha Hb ->. congruence. Qed.

Lemma demo_step_length t g x : length (Demo.step t g x) = length x.
Proof. unfold Demo.step. apply length_imap. Qed.

Lemma demo_backtrack_length fuel f x fx g t x' fx' :
  Demo.backtrack fuel f x fx g t = Ok (Some (x', fx')) -> length x' = length x.
Proof.
  revert t. induction fuel as [|fuel IH]; intros t; simpl; [discriminate|].
  destruct (f (Demo.step t g x)) as [v|e]; simpl; [|discriminate].
  destruct (v <=? fx - 1e-4 * t * dot g g)%float.
  - intros H. injection H as <- _. apply demo_step_length.
  - apply IH.
Qed.

Lemma demo_descend_length maxiter f j : forall x fx nit r,
  Demo.descend maxiter f j x fx nit = Ok r -> length (opt_x r) = length x.
Proof.
  induction maxiter as [|maxiter IH]; intros x fx nit r; cbn [Demo.descend].
  - intros H. by injection H as <-.
  - destruct (j x) as [g|e]; [rewrite bind_Ok|discriminate].
    destruct (stationary g); [intros H; by injection H as <-|].
    destruct (Demo.backtrack 30 f x fx g 1) as [[[x' fx']|]|e] eqn:Hb;
      [rewrite bind_Ok|rewrite bind_Ok; intros H; by injection H as <-|discriminate].
    intros H. rewrite (IH _ _ _ _ H). eapply demo_backtrack_length, Hb.
Qed.

Lemma demo_keeps_shape : keeps_shape Demo.minimize.
Proof.
  intros f x0 args jac r. unfold Demo.minimize.
  destruct (f x0 args.1 args.2) as [v|e]; [rewrite bind_Ok|discriminate].
  apply demo_descend_length.
Qed.

Lemma demo_evaluates_start : evaluates_start Demo.minimize.
Proof. intros f x0 args jac e H. unfold Demo.minimize. rewrite H. reflexivity. Qed.

Lemma demo_stops_at_stationary_start : stops_at_stationary_start Demo.minimize.
Proof.
  intros f x0 args jac v g Hf Hj Hs. unfold Demo.minimize. rewrite Hf, bind_Ok.
  cbn [Demo.descend]. rewrite Hj, bind_Ok, Hs. eexists. split; reflexivity.
Qed.

(** ** The theorems at concrete data *)

Ltac solved_by_computation :=
  cbv zeta;
  repeat (eapply solved_cons; [vm_compute; reflexivity | reflexivity | ]);
  apply solved_nil.

Lemma demo_solved_far :
  solved Demo.minimize (bound_total_energy Demo.obj_zero)
         (Demo.grad (bound_total_energy Demo.obj_zero)) (coeffs Demo.u_0)
         Demo.X_far Demo.y3 Demo.bvalues_far
         (Demo.solve_all Demo.obj_zero (coeffs Demo.u_0) Demo.y3 Demo.bvalues_far).
Proof.
  let v := eval vm_compute in
    (Demo.solve_all Demo.obj_zero (coeffs Demo.u_0) Demo.y3 Demo.bvalues_far) in
  change (Demo.solve_all Demo.obj_zero (coeffs Demo.u_0) Demo.y3 Demo.bvalues_far) with v.
  solved_by_computation.
Defined.

Lemma total_energy_penalized_witness :
  total_energy (coeffs Demo.u_0) [0.5; 0.25]%float [1]%float
    (make_obj Demo.mesh Demo.bnodes Demo.gamma
       (fun c fk => Demo.inner (coeffs c) (coeffs fk)) Demo.inner_u_fk) =
  ((fun e => penalized_energy Demo.gamma Demo.bnodes e (coeffs Demo.u_0) [1]%float)
     <$> Demo.inner (coeffs Demo.u_0) [0.5; 0.25]%float,
   make_obj Demo.mesh Demo.bnodes Demo.gamma
     (fun c fk => Demo.inner (coeffs c) (coeffs fk)) Demo.inner_u_fk).
Proof.
  apply (total_energy_penalized
           (make_obj Demo.mesh Demo.bnodes Demo.gamma
              (fun c fk => Demo.inner (coeffs c) (coeffs fk)) Demo.inner_u_fk)
           (fun c fk => Demo.inner (coeffs c) (coeffs fk))
           (coeffs Demo.u_0) [0.5; 0.25]%float [1]%float).
  - reflexivity.
  - repeat constructor.
  - reflexivity.
Defined.

Lemma eval_MSE_mean_clamped_witness :
  eval_MSE Demo.minimize Demo.grad Demo.zero Demo.X_far Demo.y3 Demo.bvalues_far
           Demo.mesh Demo.bnodes Demo.gamma Demo.u_0 Demo.toolbox false =
  Ok (mean (map clamp
              (zip_with (fun r t => squared_distance (opt_x r) t)
                 (Demo.solve_all Demo.obj_zero (coeffs Demo.u_0) Demo.y3 Demo.bvalues_far)
                 Demo.X_far))).
Proof.
  apply (eval_MSE_mean_clamped Demo.minimize Demo.grad Demo.zero Demo.X_far Demo.y3
           Demo.bvalues_far Demo.mesh Demo.bnodes Demo.gamma Demo.u_0 Demo.toolbox
           (fun _ _ => Ok 0%float)).
  - reflexivity.
  - exact demo_solved_far.
  - discriminate.
Defined.

Lemma eval_MSE_returns_reported_points_witness :
  eval_MSE Demo.minimize Demo.grad Demo.zero Demo.X_far Demo.y3 Demo.bvalues_far
           Demo.mesh Demo.bnodes Demo.gamma Demo.u_0 Demo.toolbox true =
  Ok (map opt_x
        (Demo.solve_all Demo.obj_zero (coeffs Demo.u_0) Demo.y3 Demo.bvalues_far)).
Proof.
  apply (eval_MSE_returns_reported_points Demo.minimize Demo.grad Demo.zero Demo.X_far
           Demo.y3 Demo.bvalues_far Demo.mesh Demo.bnodes Demo.gamma Demo.u_0
           Demo.toolbox (fun _ _ => Ok 0%float)).
  - reflexivity.
  - exact demo_solved_far.
Defined.

Lemma eval_MSE_best_sols_shape_witness :
  exists best_sols,
    eval_MSE Demo.minimize Demo.grad Demo.zero Demo.X_far Demo.y3 Demo.bvalues_far
             Demo.mesh Demo.bnodes Demo.gamma Demo.u_0 Demo.toolbox true = Ok best_sols /\
    length best_sols = 3 /\
    Forall (fun sol => length sol = 2) best_sols.
Proof.
  destruct (eval_MSE_best_sols_shape Demo.minimize Demo.grad Demo.zero Demo.X_far Demo.y3
              Demo.bvalues_far Demo.mesh Demo.bnodes Demo.gamma Demo.u_0 Demo.toolbox
              (fun _ _ => Ok 0%float))
    as (best_sols & Hr & Hn & Hshape & _).
  - exact demo_keeps_shape.
  - reflexivity.
  - reflexivity.
  - reflexivity.
  - reflexivity.
  - repeat constructor.
  - cbv zeta. repeat (constructor; [vm_compute; reflexivity|]). constructor.
  - exists best_sols. split; [exact Hr|]. split; [exact Hn|exact Hshape].
Defined.

Lemma eval_fitness_propagates_witness :
  eval_fitness Demo.minimize Demo.grad Demo.primitives_strings Demo.inner_u_fk
               Demo.X_far Demo.y_short Demo.bvalues_far
               Demo.mesh Demo.bnodes Demo.gamma Demo.u_0 Demo.penalty_length Demo.toolbox
  = Raise ValueError.
Proof.
  apply (eval_fitness_propagates Demo.minimize Demo.grad Demo.primitives_strings
           Demo.inner_u_fk Demo.X_far [0]%float [[0]; [0]]%float [1]%float
           [[1]; [1]]%float Demo.mesh Demo.bnodes Demo.gamma Demo.u_0
           Demo.penalty_length Demo.toolbox
           (fun c fk => Demo.inner (coeffs c) (coeffs fk)) ValueError).
  - exact demo_evaluates_start.
  - reflexivity.
  - repeat constructor.
  - reflexivity.
  - reflexivity.
Defined.

(** C3 fails as stated: the ill-typed individual's callable raises at the
    first evaluation, and [eval_fitness] ends in that exception instead of
    returning a penalty fitness. *)
Lemma eval_fitness_raises_on_ill_typed :
  eval_fitness Demo.minimize Demo.grad Demo.primitives_strings Demo.ill_typed
               Demo.X_far Demo.y3 Demo.bvalues_far Demo.mesh Demo.bnodes Demo.gamma
               Demo.u_0 Demo.penalty_length Demo.toolbox
  = Raise TypeError.
Proof. vm_compute. reflexivity. Qed.

Lemma eval_fitness_penalty_witness :
  eval_fitness Demo.minimize Demo.grad Demo.primitives_strings Demo.inner_u_fk
               Demo.X_far Demo.y3 Demo.bvalues_far Demo.mesh Demo.bnodes Demo.gamma
               Demo.u_0 Demo.penalty_primitive Demo.toolbox
  = Ok (Tuple1 (Demo.total_err_far + 0.1 * float_of_nat 1)%float).
Proof.
  apply (eval_fitness_penalty Demo.minimize Demo.grad Demo.primitives_strings
           Demo.inner_u_fk Demo.X_far Demo.y3 Demo.bvalues_far Demo.mesh Demo.bnodes
           Demo.gamma Demo.u_0 Demo.penalty_primitive Demo.toolbox
           Demo.total_err_far 0.1%float).
  - vm_compute. reflexivity.
  - reflexivity.
  - discriminate.
  - reflexivity.
Defined.

Lemma eval_fitness_unrecognized_method_witness :
  eval_fitness Demo.minimize Demo.grad Demo.primitives_strings Demo.inner_u_fk
               Demo.X_far Demo.y3 Demo.bvalues_far Demo.mesh Demo.bnodes Demo.gamma
               Demo.u_0 Demo.penalty_typo Demo.toolbox
  = Ok (Tuple1 Demo.total_err_far).
Proof.
  apply (eval_fitness_unrecognized_method Demo.minimize Demo.grad Demo.primitives_strings
           Demo.inner_u_fk Demo.X_far Demo.y3 Demo.bvalues_far Demo.mesh Demo.bnodes
           Demo.gamma Demo.u_0 Demo.penalty_typo Demo.toolbox
           Demo.total_err_far (VStr "lenght")).
  - vm_compute. reflexivity.
  - reflexivity.
  - discriminate.
  - discriminate.
Defined.

Lemma zero_energy_keeps_initial_guess_witness :
  eval_MSE Demo.minimize Demo.grad Demo.zero Demo.X_near Demo.y3 Demo.bvalues_near
           Demo.mesh Demo.bnodes Demo.gamma Demo.u_0 Demo.toolbox true =
    Ok (replicate 3 (coeffs Demo.u_0)) /\
  eval_MSE Demo.minimize Demo.grad Demo.zero Demo.X_near Demo.y3 Demo.bvalues_near
           Demo.mesh Demo.bnodes Demo.gamma Demo.u_0 Demo.toolbox false =
    Ok (mean (map (fun t => clamp (squared_distance (coeffs Demo.u_0) t)) Demo.X_near)).
Proof.
  apply (zero_energy_keeps_initial_guess Demo.minimize Demo.grad Demo.zero Demo.X_near
           Demo.y3 Demo.bvalues_near Demo.mesh Demo.bnodes Demo.gamma Demo.u_0
           Demo.toolbox (fun _ _ => Ok 0%float)).
  - exact demo_stops_at_stationary_start.
  - reflexivity.
  - reflexivity.
  - reflexivity.
  - reflexivity.
  - reflexivity.
  - repeat constructor.
  - repeat constructor.
  - repeat constructor.
  - cbv zeta.
    repeat (constructor; [eexists; split; [reflexivity|vm_compute; reflexivity]|]).
    constructor.
Defined.

(** C5 fails as stated. With targets whose boundary value differs from the
    initial guess, the zero energy functional leaves the boundary penalty to
    minimize: its gradient at the initial guess does not pass the stopping
    test, and the inner solves do not return the initial guess.  With
    targets whose boundary value is the initial guess's, the solves do return
    it, and the aggregate error is still not the mean squared distance: the
    third sample's distance exceeds 100 and counts as 100. *)
Lemma zero_energy_moves_and_clamps :
  stationary <$> Demo.grad (bound_total_energy Demo.obj_zero) (coeffs Demo.u_0)
                           [0; 0]%float [1]%float = Ok false /\
  eval_MSE Demo.minimize Demo.grad Demo.zero Demo.X_far Demo.y3 Demo.bvalues_far
           Demo.mesh Demo.bnodes Demo.gamma Demo.u_0 Demo.toolbox true <>
    Ok (replicate 3 (coeffs Demo.u_0)) /\
  eval_MSE Demo.minimize Demo.grad Demo.zero Demo.X_near Demo.y3 Demo.bvalues_near
           Demo.mesh Demo.bnodes Demo.gamma Demo.u_0 Demo.toolbox true =
    Ok (replicate 3 (coeffs Demo.u_0)) /\
  eval_MSE Demo.minimize Demo.grad Demo.zero Demo.X_near Demo.y3 Demo.bvalues_near
           Demo.mesh Demo.bnodes Demo.gamma Demo.u_0 Demo.toolbox false <>
    Ok (mean (map (squared_distance (coeffs Demo.u_0)) Demo.X_near)).
Proof.
  split; [vm_compute; reflexivity|]. split; [|split].
  - apply (neq_by_test Demo.same_fields); vm_compute; reflexivity.
  - vm_compute. reflexivity.
  - apply (neq_by_test Demo.same_float); vm_compute; reflexivity.
Qed.

Lemma demo_parents_within_limit : Forall within_limit [Demo.parent1; Demo.parent2].
Proof. repeat constructor; exists 10; (split; [reflexivity|unfold max_height; lia]). Defined.

Lemma decorate_replaces_by_some_parent_witness :
  exists out,
    fst (decorate (Demo.cx_tails 10 1) [Demo.parent1; Demo.parent2] (fun _ => 1)) = Ok out /\
    Forall within_limit out.
Proof.
  destruct (decorate_replaces_by_some_parent (Demo.cx_tails 10 1)
              [Demo.parent1; Demo.parent2] (fun _ => 1)
              [take 10 Demo.parent1 ++ drop 1 Demo.parent2;
               take 1 Demo.parent2 ++ drop 10 Demo.parent1] (fun _ => 1))
    as (out & r' & Hd & _ & Hw & _).
  - reflexivity.
  - discriminate.
  - repeat constructor.
  - exists out. split; [rewrite Hd; reflexivity|exact (Hw demo_parents_within_limit)].
Defined.

Example decorate_mutation_keeps_parent :
  height (replicate 8 (Primitive "Log" 1) ++ Demo.parent1) = Ok 18 /\
  fst (decorate (Demo.mut_grow 8) [Demo.parent1] (fun _ => 5)) = Ok [Demo.parent1].
Proof. split; reflexivity. Qed.

(** C7 fails as stated. A crossover of two parents of height 10 returns a
    first offspring of height 19; the wrapper draws the replacement among
    both parents, and with the draw falling on the second one the place of
    the first parent's offspring is taken by the second parent. *)
Lemma decorate_keeps_other_parent :
  height (take 10 Demo.parent1 ++ drop 1 Demo.parent2) = Ok 19 /\
  fst (decorate (Demo.cx_tails 10 1) [Demo.parent1; Demo.parent2] (fun _ => 1)) =
    Ok [Demo.parent2; [Primitive "CosF" 1; Terminal "u"]] /\
  Demo.parent2 <> Demo.parent1.
Proof.
  split; [reflexivity|]. split; [reflexivity|]. discriminate.
Qed.



(** * Further properties of the code *)

(** ** ObjFunction.total_energy: what it raises *)

Lemma index_array_out_of_range (a : vec) (idx : list nat) :
  Exists (fun i => length a <= i) idx -> index_array a idx = Raise IndexError.
Proof.
  induction idx as [|i idx IH]; intros H; [by apply Exists_nil in H|].
  cbn [index_array]. destruct (a !! i) as [v|] eqn:Hi; [|reflexivity].
  apply Exists_cons in H as [H|H].
  - apply lookup_lt_Some in Hi. lia.
  - rewrite (IH H). reflexivity.
Qed.

(** X1. Before [set_energy_func] has been called, [total_energy] raises
    AttributeError for the missing attribute (the boundary penalty having
    been computed first), and leaves the instance as it is. *)
Theorem total_energy_unbound (S0 : SimplicialComplex) (bnodes : list nat) (gamma : float)
    (vec_x vec_y vec_bvalues : vec) :
  Forall (fun b => b < length vec_x) bnodes ->
  length vec_bvalues = length bnodes ->
  total_energy vec_x vec_y vec_bvalues (ObjFunction_init S0 bnodes gamma) =
    (Raise (AttributeError "energy_func"), ObjFunction_init S0 bnodes gamma).
Proof.
  intros Hb Hlen. unfold total_energy. cbn [obj_bnodes ObjFunction_init].
  rewrite (index_array_in_range _ _ Hb), bind_Ok.
  rewrite vsub_same_length by (rewrite length_map; done).
  reflexivity.
Qed.

(** X2. A boundary node that is not an index of the candidate field makes
    [total_energy] raise IndexError, whatever the bound energy callable
    would return or raise: the callable is not reached. *)
Theorem total_energy_boundary_out_of_range (self : ObjFunction)
    (vec_x vec_y vec_bvalues : vec) :
  Exists (fun b => length vec_x <= b) (obj_bnodes self) ->
  total_energy vec_x vec_y vec_bvalues self = (Raise IndexError, self).
Proof.
  intros H. unfold total_energy. rewrite (index_array_out_of_range _ _ H). reflexivity.
Qed.

Lemma index_array_length (a : vec) (idx : list nat) (v : vec) :
  index_array a idx = Ok v -> length v = length idx.
Proof.
  revert v. induction idx as [|i idx IH]; intros v; cbn [index_array].
  - intros H. by injection H as <-.
  - destruct (a !! i) as [t|]; [|discriminate].
    destruct (index_array a idx) as [vs|e]; [|discriminate].
    rewrite bind_Ok. intros H. injection H as <-. simpl. by rewrite (IH vs).
Qed.

(** X3. With two or more boundary nodes, a boundary-value vector that has
    neither one value per boundary node nor a single value makes
    [total_energy] raise ValueError, before the energy callable is reached. *)
Theorem total_energy_shape_mismatch (self : ObjFunction) (vec_x vec_y vec_bvalues : vec) :
  Forall (fun b => b < length vec_x) (obj_bnodes self) ->
  length (obj_bnodes self) <> 1 ->
  length vec_bvalues <> length (obj_bnodes self) ->
  length vec_bvalues <> 1 ->
  total_energy vec_x vec_y vec_bvalues self = (Raise ValueError, self).
Proof.
  intros Hb H1 Hne Hv. unfold total_energy.
  rewrite (index_array_in_range _ _ Hb), bind_Ok. unfold vsub.
  rewrite decide_False by (rewrite length_map; congruence).
  destruct (obj_bnodes self) as [|b0 [|b1 bs]]; [|done|];
    destruct vec_bvalues as [|v0 [|v1 vs]]; simpl in *; done.
Qed.

Lemma vsub_single (a : vec) (v0 : float) :
  vsub a [v0] = Ok (zip_with PrimFloat.sub a (replicate (length a) v0)).
Proof.
  assert (map (fun t => PrimFloat.sub t v0) a =
          zip_with PrimFloat.sub a (replicate (length a) v0)) as Hmap.
  { induction a as [|t a IH]; [reflexivity|]. simpl. by rewrite IH. }
  unfold vsub. destruct (decide (length a = length [v0])) as [H1|H1].
  - destruct a as [|a0 [|a1 a]]; try discriminate. reflexivity.
  - rewrite <- Hmap. destruct a as [|a0 [|a1 a]]; reflexivity.
Qed.

(** X4. A boundary-value vector with a single value is accepted for any
    number of boundary nodes: the one value is compared with the candidate
    field at every boundary node. *)
Theorem total_energy_single_boundary_value (self : ObjFunction) (func : energy)
    (vec_x vec_y : vec) (v0 : float) :
  obj_energy_func self = Some func ->
  Forall (fun b => b < length vec_x) (obj_bnodes self) ->
  total_energy vec_x vec_y [v0] self =
    ((fun e => penalized_energy (obj_gamma self) (obj_bnodes self) e vec_x
                 (replicate (length (obj_bnodes self)) v0))
       <$> func (mkCochainP0 (obj_S self) vec_x) (mkCochainP0 (obj_S self) vec_y),
     self).
Proof.
  intros Hf Hb.
  rewrite <- (total_energy_value self func vec_x vec_y
                (replicate (length (obj_bnodes self)) v0) Hf Hb)
    by (by rewrite length_replicate).
  unfold total_energy.
  rewrite (index_array_in_range _ _ Hb), !bind_Ok.
  rewrite vsub_single, length_map.
  rewrite (vsub_same_length _ (replicate _ v0))
    by (by rewrite length_map, length_replicate).
  reflexivity.
Qed.

(** ** eval_MSE: partitions whose parts do not match, and failing solves *)

Section MoreFacts.

Variable minimize : optimizer.
Variable grad : objective -> jacobian.
Variable primitives_strings : list string.

Lemma row_out_of_range (a : matrix) (i : nat) : length a <= i -> row a i = Raise IndexError.
Proof. intros H. unfold row. by rewrite lookup_ge_None_2. Qed.

(** The loop over the first samples of a partition, when their solves
    return: it arrives at the remaining samples with the clamped errors
    added up and the fields collected. *)
Lemma eval_MSE_loop_prefix obj jac u_0 b X y bvalues rs :
  solved minimize (bound_total_energy obj) jac (coeffs u_0) X y bvalues rs ->
  forall Xp bp Xs bs ys total best, length bp = length Xp ->
  eval_MSE_loop minimize obj jac (Xp ++ X ++ Xs) (bp ++ bvalues ++ bs) u_0 b
                (length Xp) (y ++ ys) total best =
  eval_MSE_loop minimize obj jac (Xp ++ X ++ Xs) (bp ++ bvalues ++ bs) u_0 b
                (length Xp + length X) ys
                (foldl PrimFloat.add total (clamped_errors rs X))
                (if b then best ++ map opt_x rs else best).
Proof.
  induction 1 as [|t X vy y vb bvalues r rs Hmin Hlen _ IH];
    intros Xp bp Xs bs ys total best Hp.
  - simpl. rewrite Nat.add_0_r. destruct b; rewrite ?app_nil_r; reflexivity.
  - cbn [eval_MSE_loop app].
    rewrite <- Hp at 1.
    rewrite (row_middle bp (bvalues ++ bs) vb), bind_Ok, Hmin, bind_Ok.
    rewrite (row_middle Xp (X ++ Xs) t), bind_Ok.
    rewrite (vsub_same_length _ _ Hlen), bind_Ok.
    rewrite clamp_code.
    rewrite (squared_distance_norm (opt_x r) t) by (by apply vsub_same_length || done).
    replace (S (length Xp)) with (length (Xp ++ [t])) by (rewrite length_app; simpl; lia).
    rewrite (cons_middle t Xp (X ++ Xs)), (cons_middle vb bp (bvalues ++ bs)), !app_assoc.
    rewrite <- (app_assoc (Xp ++ [t])), <- (app_assoc (bp ++ [vb])).
    rewrite IH by (rewrite !length_app; simpl; lia).
    rewrite length_app. cbn [length].
    replace (length Xp + 1 + length X) with (length Xp + S (length X)) by lia.
    f_equal.
    destruct b; [|reflexivity].
    rewrite <- app_assoc. reflexivity.
Qed.

Lemma eval_MSE_after_prefix individual X y bvalues Xs bs ys mesh bnodes gamma u_0 toolbox
    energy_func rs (b : bool) :
  compile toolbox individual = Ok energy_func ->
  (let obj := make_obj mesh bnodes gamma energy_func individual in
   solved minimize (bound_total_energy obj) (grad (bound_total_energy obj)) (coeffs u_0)
          X y bvalues rs) ->
  eval_MSE minimize grad individual (X ++ Xs) (y ++ ys) (bvalues ++ bs) mesh bnodes gamma
           u_0 toolbox b =
  (let obj := make_obj mesh bnodes gamma energy_func individual in
   acc ← eval_MSE_loop minimize obj (grad (bound_total_energy obj)) (X ++ Xs)
           (bvalues ++ bs) u_0 b (length X) ys
           (foldl PrimFloat.add 0%float (clamped_errors rs X))
           (if b then map opt_x rs else []);
   let '(total_err, best_sols) := acc in
   (if b as b return res (if b then list vec else float)
    then Ok best_sols
    else if decide (length (X ++ Xs) = 0) then Raise ZeroDivisionError
         else Ok (total_err * (1 / float_of_nat (length (X ++ Xs))))%float)).
Proof.
  intros Hc Hs. unfold eval_MSE. rewrite Hc, bind_Ok. cbv zeta.
  pose proof (eval_MSE_loop_prefix _ _ u_0 b _ _ _ _ Hs [] [] Xs bs ys 0%float [] eq_refl)
    as Hl.
  simpl in Hl. rewrite Hl. destruct b; reflexivity.
Qed.

(** X5. The first inner solve that raises ends [eval_MSE] with its
    exception, with or without per-sample output: the fields solved for the
    samples before it are not returned. *)
Theorem eval_MSE_raises_at_sample individual X y bvalues Xs vec_y ys vec_bvalues bs
    mesh bnodes gamma u_0 toolbox energy_func rs e (b : bool) :
  compile toolbox individual = Ok energy_func ->
  (let obj := make_obj mesh bnodes gamma energy_func individual in
   solved minimize (bound_total_energy obj) (grad (bound_total_energy obj)) (coeffs u_0)
          X y bvalues rs /\
   minimize (bound_total_energy obj) (coeffs u_0) (vec_y, vec_bvalues)
            (grad (bound_total_energy obj)) = Raise e) ->
  eval_MSE minimize grad individual (X ++ Xs) (y ++ vec_y :: ys)
           (bvalues ++ vec_bvalues :: bs) mesh bnodes gamma u_0 toolbox b = Raise e.
Proof.
  intros Hc [Hs He].
  rewrite (eval_MSE_after_prefix _ _ _ _ _ _ _ _ _ _ _ _ _ _ b Hc Hs). cbv zeta.
  cbn [eval_MSE_loop].
  destruct (solved_length minimize grad _ _ _ _ _ _ _ Hs) as (HlX & _ & Hlb).
  replace (length X) with (length bvalues) at 1 by lia.
  rewrite (row_middle bvalues bs vec_bvalues), bind_Ok, He. reflexivity.
Qed.

(** X6. Targets beyond the last sample are never compared with anything,
    yet they count in the average: the aggregate error is the sum of the
    clamped errors of the samples times one over the number of targets. *)
Theorem eval_MSE_surplus_targets individual X y bvalues Xs bs mesh bnodes gamma u_0
    toolbox energy_func rs :
  compile toolbox individual = Ok energy_func ->
  (let obj := make_obj mesh bnodes gamma energy_func individual in
   solved minimize (bound_total_energy obj) (grad (bound_total_energy obj)) (coeffs u_0)
          X y bvalues rs) ->
  X ++ Xs <> [] ->
  eval_MSE minimize grad individual (X ++ Xs) y (bvalues ++ bs) mesh bnodes gamma u_0
           toolbox false =
  Ok (vsum (map clamp (zip_with (fun r t => squared_distance (opt_x r) t) rs X))
      * (1 / float_of_nat (length X + length Xs)))%float.
Proof.
  intros Hc Hs Hne.
  pose proof (eval_MSE_after_prefix _ _ _ _ Xs bs [] _ _ _ _ _ _ _ false Hc Hs) as H.
  rewrite app_nil_r in H. rewrite H. cbv zeta. cbn [eval_MSE_loop]. rewrite bind_Ok.
  rewrite decide_False by (destruct (X ++ Xs); [done|discriminate]).
  rewrite length_app. reflexivity.
Qed.

(** X7. With fewer rows of boundary values than samples, [eval_MSE] raises
    IndexError at the first sample without a row, before solving it. *)
Theorem eval_MSE_missing_boundary_row individual X y bvalues Xs vec_y ys mesh bnodes
    gamma u_0 toolbox energy_func rs (b : bool) :
  compile toolbox individual = Ok energy_func ->
  (let obj := make_obj mesh bnodes gamma energy_func individual in
   solved minimize (bound_total_energy obj) (grad (bound_total_energy obj)) (coeffs u_0)
          X y bvalues rs) ->
  eval_MSE minimize grad individual (X ++ Xs) (y ++ vec_y :: ys) bvalues mesh bnodes
           gamma u_0 toolbox b = Raise IndexError.
Proof.
  intros Hc Hs.
  pose proof (eval_MSE_after_prefix _ _ _ _ Xs [] (vec_y :: ys) _ _ _ _ _ _ _ b Hc Hs) as H.
  rewrite app_nil_r in H. rewrite H. cbv zeta. cbn [eval_MSE_loop].
  destruct (solved_length minimize grad _ _ _ _ _ _ _ Hs) as (HlX & _ & Hlb).
  rewrite (row_out_of_range bvalues (length X)) by lia. reflexivity.
Qed.

(** X8. With fewer targets than samples, [eval_MSE] raises IndexError at
    the first sample without a target, after solving it, with or without
    per-sample output. *)
Theorem eval_MSE_missing_target individual X y bvalues vec_y ys vec_bvalues bs mesh
    bnodes gamma u_0 toolbox energy_func rs r (b : bool) :
  compile toolbox individual = Ok energy_func ->
  (let obj := make_obj mesh bnodes gamma energy_func individual in
   solved minimize (bound_total_energy obj) (grad (bound_total_energy obj)) (coeffs u_0)
          X y bvalues rs /\
   minimize (bound_total_energy obj) (coeffs u_0) (vec_y, vec_bvalues)
            (grad (bound_total_energy obj)) = Ok r) ->
  eval_MSE minimize grad individual X (y ++ vec_y :: ys) (bvalues ++ vec_bvalues :: bs)
           mesh bnodes gamma u_0 toolbox b = Raise IndexError.
Proof.
  intros Hc [Hs Hr].
  pose proof (eval_MSE_after_prefix _ _ _ _ [] (vec_bvalues :: bs) (vec_y :: ys)
                _ _ _ _ _ _ _ b Hc Hs) as H.
  rewrite app_nil_r in H. rewrite H. cbv zeta. cbn [eval_MSE_loop].
  destruct (solved_length minimize grad _ _ _ _ _ _ _ Hs) as (HlX & _ & Hlb).
  replace (length X) with (length bvalues) at 1 by lia.
  rewrite (row_middle bvalues bs vec_bvalues), bind_Ok, Hr, bind_Ok.
  rewrite (row_out_of_range X (length X)) by lia. reflexivity.
Qed.

(** X9. The aggregate error can be recomputed from the per-sample output:
    on a non-empty partition on which every solve returns, [eval_MSE]
    without per-sample output is the mean of the clamped squared distances
    between the fields [eval_MSE] returns with per-sample output and the
    targets. *)
Theorem eval_MSE_modes_agree individual X y bvalues mesh bnodes gamma u_0 toolbox
    energy_func rs :
  compile toolbox individual = Ok energy_func ->
  (let obj := make_obj mesh bnodes gamma energy_func individual in
   solved minimize (bound_total_energy obj) (grad (bound_total_energy obj)) (coeffs u_0)
          X y bvalues rs) ->
  X <> [] ->
  exists best_sols,
    eval_MSE minimize grad individual X y bvalues mesh bnodes gamma u_0 toolbox true =
      Ok best_sols /\
    eval_MSE minimize grad individual X y bvalues mesh bnodes gamma u_0 toolbox false =
      Ok (mean (map clamp (zip_with squared_distance best_sols X))).
Proof.
  intros Hc Hs HX. exists (map opt_x rs). split.
  - exact (eval_MSE_solved _ _ _ _ _ _ _ _ _ _ _ _ _ true Hc Hs).
  - rewrite (eval_MSE_false_solved _ _ _ _ _ _ _ _ _ _ _ _ _ Hc Hs HX).
    unfold clamped_errors.
    change (map opt_x rs) with (opt_x <$> rs). rewrite zip_with_fmap_l. reflexivity.
Qed.

Lemma clamp_bounded (err : float) :
  PrimFloat.is_nan (clamp err) = false /\ (100 <? clamp err)%float = false.
Proof.
  unfold clamp.
  destruct (PrimFloat.is_nan err) eqn:Hnan; [split; reflexivity|].
  destruct (100 <? err)%float eqn:Hgt; [split; reflexivity|].
  split; assumption.
Qed.

(** X10. What a sample adds to the total is never NaN and never more than
    100, whatever its squared distance was: on a non-empty partition on
    which every solve returns, the aggregate error is the mean of one
    number per sample, none of them NaN and none above 100. *)
Theorem per_sample_error_bounded individual X y bvalues mesh bnodes gamma u_0 toolbox
    energy_func rs :
  compile toolbox individual = Ok energy_func ->
  (let obj := make_obj mesh bnodes gamma energy_func individual in
   solved minimize (bound_total_energy obj) (grad (bound_total_energy obj)) (coeffs u_0)
          X y bvalues rs) ->
  X <> [] ->
  exists errs,
    eval_MSE minimize grad individual X y bvalues mesh bnodes gamma u_0 toolbox false =
      Ok (mean errs) /\
    length errs = length y /\
    Forall (fun err => PrimFloat.is_nan err = false /\ (100 <? err)%float = false) errs.
Proof.
  intros Hc Hs HX. exists (clamped_errors rs X).
  destruct (solved_length minimize grad _ _ _ _ _ _ _ Hs) as (HlX & Hly & _).
  split; [exact (eval_MSE_false_solved _ _ _ _ _ _ _ _ _ _ _ _ _ Hc Hs HX)|].
  split; [rewrite clamped_errors_length by done; lia|].
  unfold clamped_errors. apply Forall_forall. intros err Hin.
  apply list_elem_of_fmap in Hin as (d & -> & _). apply clamp_bounded.
Qed.

(** ** eval_fitness: what a faulty penalty dictionary raises *)

Lemma getitem_missing (d : gmap string value) (k : string) :
  d !! k = None -> getitem d k = Raise (KeyError k).
Proof. intros H. unfold getitem. by rewrite H. Qed.

(** X11. A penalty dictionary without "method" makes [eval_fitness] raise
    KeyError for that key, once the partition error has been computed. *)
Theorem eval_fitness_missing_method individual X y bvalues mesh bnodes gamma u_0
    (penalty : gmap string value) toolbox total_err :
  eval_MSE minimize grad individual X y bvalues mesh bnodes gamma u_0 toolbox false =
    Ok total_err ->
  penalty !! "method" = None ->
  eval_fitness minimize grad primitives_strings individual X y bvalues mesh bnodes
               gamma u_0 penalty toolbox = Raise (KeyError "method").
Proof.
  intros Herr Hm. unfold eval_fitness.
  rewrite Herr, bind_Ok, (getitem_missing _ _ Hm). reflexivity.
Qed.

(** X12. With method "primitive" or "length" and no "reg_param" in the
    dictionary, [eval_fitness] raises KeyError for "reg_param"; for
    "primitive" this comes before the primitive names are counted. *)
Theorem eval_fitness_missing_reg_param individual X y bvalues mesh bnodes gamma u_0
    (penalty : gmap string value) toolbox total_err :
  eval_MSE minimize grad individual X y bvalues mesh bnodes gamma u_0 toolbox false =
    Ok total_err ->
  penalty !! "method" = Some (VStr "primitive") \/
  penalty !! "method" = Some (VStr "length") ->
  penalty !! "reg_param" = None ->
  eval_fitness minimize grad primitives_strings individual X y bvalues mesh bnodes
               gamma u_0 penalty toolbox = Raise (KeyError "reg_param").
Proof.
  intros Herr [Hm|Hm] Hr; unfold eval_fitness;
    rewrite Herr, bind_Ok, !(getitem_lookup _ _ _ Hm), !bind_Ok; cbn [value_is].
  - rewrite bool_decide_eq_true_2 by done.
    rewrite (getitem_missing _ _ Hr). reflexivity.
  - rewrite bool_decide_eq_false_2 by discriminate.
    rewrite bool_decide_eq_true_2 by done.
    rewrite (getitem_missing _ _ Hr). reflexivity.
Qed.

(** X13. With method "primitive" and a "reg_param" that is a string, and
    likewise with method "length", [eval_fitness] raises TypeError. *)
Theorem eval_fitness_reg_param_not_a_number individual X y bvalues mesh bnodes gamma u_0
    (penalty : gmap string value) toolbox total_err s :
  eval_MSE minimize grad individual X y bvalues mesh bnodes gamma u_0 toolbox false =
    Ok total_err ->
  (penalty !! "method" = Some (VStr "primitive") /\ primitives_strings <> []) \/
  penalty !! "method" = Some (VStr "length") ->
  penalty !! "reg_param" = Some (VStr s) ->
  eval_fitness minimize grad primitives_strings individual X y bvalues mesh bnodes
               gamma u_0 penalty toolbox = Raise TypeError.
Proof.
  intros Herr [[Hm Hp]|Hm] Hr; unfold eval_fitness;
    rewrite Herr, bind_Ok, !(getitem_lookup _ _ _ Hm), !bind_Ok; cbn [value_is].
  - rewrite bool_decide_eq_true_2 by done.
    rewrite (getitem_lookup _ _ _ Hr), bind_Ok.
    rewrite py_max_max_list by (destruct primitives_strings; [done|discriminate]).
    reflexivity.
  - rewrite bool_decide_eq_false_2 by discriminate.
    rewrite bool_decide_eq_true_2 by done.
    rewrite (getitem_lookup _ _ _ Hr), bind_Ok. reflexivity.
Qed.

(** X14. With method "primitive", a "reg_param" in the dictionary and an
    empty list of tracked primitive names, [eval_fitness] raises ValueError:
    the maximum of no counts. *)
Theorem eval_fitness_no_tracked_primitives individual X y bvalues mesh bnodes gamma u_0
    (penalty : gmap string value) toolbox total_err reg_param :
  primitives_strings = [] ->
  eval_MSE minimize grad individual X y bvalues mesh bnodes gamma u_0 toolbox false =
    Ok total_err ->
  penalty !! "method" = Some (VStr "primitive") ->
  penalty !! "reg_param" = Some reg_param ->
  eval_fitness minimize grad primitives_strings individual X y bvalues mesh bnodes
               gamma u_0 penalty toolbox = Raise ValueError.
Proof.
  intros Hp Herr Hm Hr. unfold eval_fitness.
  rewrite Herr, bind_Ok, !(getitem_lookup _ _ _ Hm), !bind_Ok. cbn [value_is].
  rewrite bool_decide_eq_true_2 by done.
  rewrite (getitem_lookup _ _ _ Hr), bind_Ok, Hp. reflexivity.
Qed.

End MoreFacts.

(** ** str.count on the individual's text *)

Lemma prefix_length (sub s : string) :
  String.prefix sub s = true -> String.length sub <= String.length s.
Proof.
  revert s. induction sub as [|a sub IH]; intros s; [simpl; lia|].
  destruct s as [|b s]; simpl; [discriminate|].
  destruct (Ascii.ascii_dec a b); [|discriminate].
  intros H. apply IH in H. lia.
Qed.

Lemma count_from_disjoint (sub s : string) (skip : nat) :
  count_from sub s skip * String.length sub + skip `min` String.length s
    <= String.length s.
Proof.
  revert skip. induction s as [|c s IH]; intros skip; cbn [count_from String.length].
  - lia.
  - destruct skip as [|k].
    + destruct (String.prefix sub (String c s)) eqn:Hp.
      * apply prefix_length in Hp. cbn [String.length] in Hp.
        specialize (IH (String.length sub - 1)). nia.
      * specialize (IH 0). lia.
    + specialize (IH k). lia.
Qed.

(** X15. The occurrences [str.count] counts do not overlap: for a non-empty
    name, the count times the name's length is at most the length of the
    text, so no tracked name is counted more often than the text is long. *)
Theorem str_count_disjoint (text name : string) :
  name <> EmptyString ->
  str_count text name * String.length name <= String.length text /\
  str_count text name <= String.length text.
Proof.
  intros Hne. unfold str_count. destruct name as [|a name]; [done|].
  pose proof (count_from_disjoint (String a name) text 0) as H.
  cbn [String.length] in *. split; nia.
Qed.

(** ** stgp_poisson: boundary values and the initial guess *)

Lemma columns_in_range (X : matrix) (bnodes : list nat) :
  Forall (fun t => Forall (fun b => b < length t) bnodes) X ->
  columns X bnodes = Ok (map (fun t => map (fun b => default 0%float (t !! b)) bnodes) X).
Proof.
  induction 1 as [|t X Ht _ IH]; [reflexivity|].
  cbn [columns map]. rewrite (index_array_in_range _ _ Ht), bind_Ok, IH. reflexivity.
Qed.

Lemma index_array_raises (a : vec) (idx : list nat) (e : exn) :
  index_array a idx = Raise e -> e = IndexError.
Proof.
  induction idx as [|i idx IH]; cbn [index_array]; [discriminate|].
  destruct (a !! i) as [v|]; [|intros H; by injection H as <-].
  destruct (index_array a idx) as [vs|e']; [discriminate|].
  intros H. injection H as <-. by apply IH.
Qed.

Lemma columns_raises (X : matrix) (bnodes : list nat) (e : exn) :
  columns X bnodes = Raise e -> e = IndexError.
Proof.
  induction X as [|t X IH]; cbn [columns]; [discriminate|].
  destruct (index_array t bnodes) as [vb|e'] eqn:Ht.
  - rewrite bind_Ok. destruct (columns X bnodes) as [bv|e'']; [discriminate|].
    intros H. injection H as <-. by apply IH.
  - intros H. injection H as <-. eapply index_array_raises, Ht.
Qed.

Lemma columns_out_of_range (X : matrix) (bnodes : list nat) :
  Exists (fun t => Exists (fun b => length t <= b) bnodes) X ->
  columns X bnodes = Raise IndexError.
Proof.
  induction 1 as [t X Ht|t X _ IH]; cbn [columns].
  - rewrite (index_array_out_of_range _ _ Ht). reflexivity.
  - destruct (index_array t bnodes) as [vb|e] eqn:Hi.
    + rewrite bind_Ok, IH. reflexivity.
    + by rewrite (index_array_raises _ _ _ Hi).
Qed.

Lemma columns_lookup (X : matrix) (bnodes : list nat) (bvalues : matrix) :
  columns X bnodes = Ok bvalues ->
  forall i t vec_bvalues,
    X !! i = Some t -> bvalues !! i = Some vec_bvalues ->
    index_array t bnodes = Ok vec_bvalues.
Proof.
  revert bvalues. induction X as [|t X IH]; intros bvalues; cbn [columns].
  - intros _ i t vb Ht. discriminate.
  - destruct (index_array t bnodes) as [vb|e] eqn:Ht; [rewrite bind_Ok|discriminate].
    destruct (columns X bnodes) as [bv|e]; [rewrite bind_Ok|discriminate].
    intros H. injection H as <-. intros [|i] t' vb' Hi Hb; simpl in *.
    + congruence.
    + eapply IH; eauto.
Qed.

Lemma index_array_Ok_range (a : vec) (idx : list nat) (v : vec) :
  index_array a idx = Ok v ->
  Forall (fun i => i < length a) idx /\ v = map (fun i => default 0%float (a !! i)) idx.
Proof.
  revert v. induction idx as [|i idx IH]; intros v; cbn [index_array].
  - intros H. injection H as <-. split; [constructor|reflexivity].
  - destruct (a !! i) as [t|] eqn:Hi; [|discriminate].
    destruct (index_array a idx) as [vs|e]; [rewrite bind_Ok|discriminate].
    intros H. injection H as <-. destruct (IH vs eq_refl) as [Hr ->].
    split; [constructor; [eapply lookup_lt_Some, Hi|done]|].
    simpl. by rewrite Hi.
Qed.

Lemma boundary_mismatch_targets (vec_x t : vec) (bnodes : list nat) (acc : float) :
  foldl (fun acc p => let d := (default 0 (vec_x !! p.1) - p.2)%float in (acc + d * d)%float)
        acc (zip bnodes (map (fun b => default 0%float (t !! b)) bnodes)) =
  foldl (fun acc b =>
           let d := (default 0 (vec_x !! b) - default 0 (t !! b))%float in
           (acc + d * d)%float) acc bnodes.
Proof.
  revert acc. induction bnodes as [|b bnodes IH]; intros acc; [reflexivity|].
  simpl. apply IH.
Qed.

(** X16. With the boundary values [stgp_poisson] takes from the targets
    ([X[:, bnodes]]), the penalty of sample [i] compares the candidate field
    with the target of sample [i] on the boundary nodes: [total_energy]
    returns the energy plus 0.5·γ·Σ over the boundary nodes of
    (vec_x[node] − target[node])². *)
Theorem total_energy_with_target_boundary (self : ObjFunction) (func : energy)
    (X bvalues : matrix) (i : nat) (t vec_bvalues vec_x vec_y : vec) :
  columns X (obj_bnodes self) = Ok bvalues ->
  X !! i = Some t ->
  bvalues !! i = Some vec_bvalues ->
  obj_energy_func self = Some func ->
  Forall (fun b => b < length vec_x) (obj_bnodes self) ->
  total_energy vec_x vec_y vec_bvalues self =
    ((fun e =>
        (e + 0.5 * obj_gamma self *
             foldl (fun acc b =>
                      let d := (default 0 (vec_x !! b) - default 0 (t !! b))%float in
                      (acc + d * d)%float) 0 (obj_bnodes self))%float)
       <$> func (mkCochainP0 (obj_S self) vec_x) (mkCochainP0 (obj_S self) vec_y),
     self).
Proof.
  intros Hc Ht Hb Hf Hx.
  pose proof (columns_lookup _ _ _ Hc i t vec_bvalues Ht Hb) as Hi.
  destruct (index_array_Ok_range _ _ _ Hi) as [_ ->].
  rewrite (total_energy_value self func) by (rewrite ?length_map; done).
  unfold penalized_energy, boundary_mismatch.
  rewrite boundary_mismatch_targets. reflexivity.
Qed.

(** X17. Whenever the setup of [stgp_poisson] goes through, gamma is 1000,
    the initial guess lives on the mesh of the data and has exactly one
    coefficient per mesh node, each 0.01 times one draw, and exactly
    [num_nodes] draws have been taken from the generator. *)
Theorem stgp_poisson_setup_initial_guess minimize grad primitives_strings toolbox data
    config_file (g : np_random) s :
  fst (stgp_poisson_setup minimize grad primitives_strings toolbox data config_file g)
    = Ok s ->
  setup_gamma s = 1000%float /\
  complex (setup_u_0 s) = data_S data /\
  length (coeffs (setup_u_0 s)) = num_nodes (data_S data) /\
  (forall k, k < num_nodes (data_S data) ->
     coeffs (setup_u_0 s) !! k = Some (0.01 * g k)%float) /\
  (forall k,
     snd (stgp_poisson_setup minimize grad primitives_strings toolbox data config_file g) k
       = g (num_nodes (data_S data) + k)).
Proof.
  unfold stgp_poisson_setup.
  destruct (columns (X_train data) _) as [bt|e]; [|discriminate].
  destruct (columns (X_val data) _) as [bv|e]; [|discriminate].
  destruct (columns (X_test data) _) as [bs|e]; [|discriminate].
  cbn. intros H. injection H as <-. cbn.
  split; [reflexivity|]. split; [reflexivity|].
  split; [by rewrite !length_map, length_seq|].
  split; [|reflexivity].
  intros k Hk. rewrite !list_lookup_fmap, lookup_seq_lt by done. reflexivity.
Qed.

(** X18. When some boundary node is not an index of some training,
    validation or test target, the setup of [stgp_poisson] raises IndexError
    and has drawn nothing from the generator. *)
Theorem stgp_poisson_setup_boundary_out_of_range minimize grad primitives_strings
    toolbox data config_file (g : np_random) :
  Exists (fun t => Exists (fun b => length t <= b) (data_bnodes data))
         (X_train data ++ X_val data ++ X_test data) ->
  stgp_poisson_setup minimize grad primitives_strings toolbox data config_file g =
    (Raise IndexError, g).
Proof.
  intros H. unfold stgp_poisson_setup.
  destruct (columns (X_train data) _) as [bt|e] eqn:Et;
    [|by rewrite (columns_raises _ _ _ Et)].
  destruct (columns (X_val data) _) as [bv|e] eqn:Ev;
    [|by rewrite (columns_raises _ _ _ Ev)].
  destruct (columns (X_test data) _) as [bs|e] eqn:Es;
    [|by rewrite (columns_raises _ _ _ Es)].
  exfalso. apply Exists_app in H as [H|H]; [|apply Exists_app in H as [H|H]];
    apply columns_out_of_range in H; congruence.
Qed.

(** X19. In a run whose penalty method is neither "primitive" nor "length",
    the validation fitness of an individual is its validation error wrapped
    in a 1-tuple, exception for exception; with method "length" and a
    numeric coefficient it is the validation error plus the coefficient
    times the number of nodes. *)
Theorem validation_fitness_from_error minimize grad primitives_strings toolbox data
    config_file (g : np_random) s individual :
  fst (stgp_poisson_setup minimize grad primitives_strings toolbox data config_file g)
    = Ok s ->
  (forall method_,
     cfg_penalty config_file !! "method" = Some method_ ->
     method_ <> VStr "primitive" -> method_ <> VStr "length" ->
     evaluate_val_fit s individual = Tuple1 <$> evaluate_val_MSE s individual) /\
  (forall c,
     cfg_penalty config_file !! "method" = Some (VStr "length") ->
     cfg_penalty config_file !! "reg_param" = Some (VNum c) ->
     evaluate_val_fit s individual =
       (fun err => Tuple1 (err + c * float_of_nat (length individual))%float)
         <$> evaluate_val_MSE s individual).
Proof.
  unfold stgp_poisson_setup.
  destruct (columns (X_train data) _) as [bt|e]; [|discriminate].
  destruct (columns (X_val data) _) as [bv|e]; [|discriminate].
  destruct (columns (X_test data) _) as [bs|e]; [|discriminate].
  cbn. intros H. injection H as <-. cbn [evaluate_val_fit evaluate_val_MSE].
  unfold eval_fitness. split.
  - intros m Hm Hp Hl.
    destruct (eval_MSE _ _ _ _ _ _ _ _ _ _ _ false) as [err|e]; [|reflexivity].
    rewrite bind_Ok, !(getitem_lookup _ _ _ Hm), !bind_Ok.
    rewrite (value_is_other _ _ Hp), (value_is_other _ _ Hl). reflexivity.
  - intros c Hm Hr.
    destruct (eval_MSE _ _ _ _ _ _ _ _ _ _ _ false) as [err|e]; [|reflexivity].
    rewrite bind_Ok, !(getitem_lookup _ _ _ Hm), !bind_Ok. cbn [value_is].
    rewrite bool_decide_eq_false_2 by discriminate.
    rewrite bool_decide_eq_true_2 by done.
    rewrite (getitem_lookup _ _ _ Hr), bind_Ok. reflexivity.
Qed.

(** ** The height limit on offspring within the limit *)

Lemma staticLimit_loop_within (keep_inds new_inds : list PrimitiveTree) (r : rng) :
  Forall within_limit new_inds ->
  staticLimit_loop height max_height keep_inds new_inds r = (Ok new_inds, r).
Proof.
  induction 1 as [|ind rest (h & Hh & Hle) _ IH]; [reflexivity|].
  cbn [staticLimit_loop]. rewrite Hh.
  rewrite decide_False by lia. rewrite IH. reflexivity.
Qed.

(** X20. When every offspring the wrapped operator returns is within the
    height limit, the decorated operator returns exactly these offspring and
    the generator as the operator left it: no replacement is drawn. *)
Theorem decorate_within_limit_is_identity (func : variation) args r new_inds r1 :
  func args r = (Ok new_inds, r1) ->
  Forall within_limit new_inds ->
  decorate func args r = (Ok new_inds, r1).
Proof.
  intros Hf Hw. unfold decorate, staticLimit. rewrite Hf.
  by apply staticLimit_loop_within.
Qed.

(** ** plot_sol *)

Section ReportingFacts.

Variable minimize : optimizer.
Variable grad : objective -> jacobian.
Context {T : Type}.

(** X21. On a partition of at least three samples on which every solve
    returns, [plot_sol] draws six contour plots: for each of the first three
    samples the solved field on the upper row and the target on the lower
    row, column by column. *)
Theorem plot_sol_draws_three_samples individual t0 t1 t2 X y bvalues r0 r1 r2 rs
    mesh bnodes gamma u_0 (triang : T) toolbox energy_func :
  compile toolbox individual = Ok energy_func ->
  (let obj := make_obj mesh bnodes gamma energy_func individual in
   solved minimize (bound_total_energy obj) (grad (bound_total_energy obj)) (coeffs u_0)
          (t0 :: t1 :: t2 :: X) y bvalues (r0 :: r1 :: r2 :: rs)) ->
  plot_sol minimize grad individual (t0 :: t1 :: t2 :: X) y bvalues mesh bnodes gamma
           u_0 triang toolbox =
  Ok [tricontourf (0, 0) triang (opt_x r0); tricontourf (1, 0) triang t0;
      tricontourf (0, 1) triang (opt_x r1); tricontourf (1, 1) triang t1;
      tricontourf (0, 2) triang (opt_x r2); tricontourf (1, 2) triang t2].
Proof.
  intros Hc Hs. unfold plot_sol.
  rewrite (eval_MSE_solved _ _ _ _ _ _ _ _ _ _ _ _ _ true Hc Hs). reflexivity.
Qed.

(** X22. On a partition of fewer than three samples, [plot_sol] raises
    IndexError after all the solves have been done. *)
Theorem plot_sol_needs_three_samples individual X y bvalues rs mesh bnodes gamma u_0
    (triang : T) toolbox energy_func :
  compile toolbox individual = Ok energy_func ->
  (let obj := make_obj mesh bnodes gamma energy_func individual in
   solved minimize (bound_total_energy obj) (grad (bound_total_energy obj)) (coeffs u_0)
          X y bvalues rs) ->
  length y < 3 ->
  plot_sol minimize grad individual X y bvalues mesh bnodes gamma u_0 triang toolbox =
  Raise IndexError.
Proof.
  intros Hc Hs Hy. unfold plot_sol.
  rewrite (eval_MSE_solved _ _ _ _ _ _ _ _ _ _ _ _ _ true Hc Hs), bind_Ok.
  destruct (solved_length minimize grad _ _ _ _ _ _ _ Hs) as (HlX & Hly & _).
  destruct rs as [|r0 [|r1 [|r2 rs]]]; simpl in Hly; [| | |lia];
    destruct X as [|t0 [|t1 [|t2 X]]]; simpl in HlX; try lia; reflexivity.
Qed.

(** ** The test report *)

(** The files of the test report: for the [i]-th test sample, counted from
    [i0], the solved field and then the target. *)
Fixpoint test_files (i0 : nat) (best_sols X_test : matrix) : list (string * vec) :=
  match best_sols, X_test with
  | sol :: best_sols', t :: X_test' =>
      ("best_sol_test_" +:+ pretty i0 +:+ ".npy", sol)
        :: ("true_sol_test_" +:+ pretty i0 +:+ ".npy", t)
        :: test_files (S i0) best_sols' X_test'
  | _, _ => []
  end.

Lemma save_loop_files (best_sols X_test Xp : matrix) (saved : list (string * vec)) :
  length best_sols = length X_test ->
  save_loop (length Xp) best_sols (Xp ++ X_test) saved =
  Ok (saved ++ test_files (length Xp) best_sols X_test).
Proof.
  revert X_test Xp saved.
  induction best_sols as [|sol best_sols IH]; intros [|t X_test] Xp saved Hl;
    try discriminate.
  - simpl. by rewrite app_nil_r.
  - cbn [save_loop test_files]. rewrite (row_middle Xp X_test t), bind_Ok.
    replace (S (length Xp)) with (length (Xp ++ [t])) by (rewrite length_app; simpl; lia).
    rewrite (cons_middle t Xp X_test), app_assoc.
    rewrite IH by (simpl in Hl; lia).
    rewrite <- !app_assoc. reflexivity.
Qed.

Lemma string_length_append (a b : string) :
  String.length (a +:+ b) = String.length a + String.length b.
Proof. induction a as [|c a IH]; simpl; [reflexivity|]. by rewrite IH. Qed.

Lemma string_append_cancel_r (a b s : string) : a +:+ s = b +:+ s -> a = b.
Proof.
  revert b. induction a as [|c a IH]; intros [|d b] H.
  - reflexivity.
  - apply (f_equal String.length) in H.
    rewrite !string_length_append in H. simpl in H. lia.
  - apply (f_equal String.length) in H.
    rewrite !string_length_append in H. simpl in H. lia.
  - simpl in H. injection H as -> H. f_equal. by apply IH.
Qed.

Lemma file_name_inj (stem : string) (i j : nat) :
  stem +:+ pretty i +:+ ".npy" = stem +:+ pretty j +:+ ".npy" -> i = j.
Proof.
  intros H. apply String.app_inj in H. apply string_append_cancel_r in H.
  by apply pretty_nat_inj in H.
Qed.

Lemma test_files_names (i0 : nat) (best_sols X_test : matrix) (name : string) :
  name ∈ (test_files i0 best_sols X_test).*1 ->
  exists i, i0 <= i /\
    (name = "best_sol_test_" +:+ pretty i +:+ ".npy" \/
     name = "true_sol_test_" +:+ pretty i +:+ ".npy").
Proof.
  revert i0 X_test. induction best_sols as [|sol best_sols IH]; intros i0 [|t X_test];
    cbn [test_files fmap list_fmap fst]; try (intros H; by apply elem_of_nil in H).
  intros H. apply elem_of_cons in H as [->|H]; [exists i0; split; [lia|by left]|].
  apply elem_of_cons in H as [->|H]; [exists i0; split; [lia|by right]|].
  destruct (IH _ _ H) as (i & Hi & Hn). exists i. split; [lia|done].
Qed.

Lemma test_files_NoDup (i0 : nat) (best_sols X_test : matrix) :
  NoDup (test_files i0 best_sols X_test).*1.
Proof.
  revert i0 X_test. induction best_sols as [|sol best_sols IH]; intros i0 [|t X_test];
    cbn [test_files fmap list_fmap fst]; try constructor.
  - intros H. apply elem_of_cons in H as [H|H]; [discriminate|].
    apply test_files_names in H as (i & Hi & [H|H]); [|discriminate].
    apply file_name_inj in H. lia.
  - constructor; [|apply IH].
    intros H. apply test_files_names in H as (i & Hi & [H|H]); [discriminate|].
    apply file_name_inj in H. lia.
Qed.

Lemma test_files_length (i0 : nat) (best_sols X_test : matrix) :
  length best_sols = length X_test ->
  length (test_files i0 best_sols X_test) = 2 * length X_test.
Proof.
  revert i0 X_test. induction best_sols as [|sol best_sols IH]; intros i0 [|t X] Hl;
    try discriminate; [reflexivity|].
  cbn [test_files length]. rewrite (IH (S i0) X) by (simpl in Hl; lia). lia.
Qed.

(** X23. On a non-empty test partition on which every solve returns, the
    test report holds the mean clamped squared distance between the solved
    fields and the targets, and saves, for each test sample in order, the
    solved field under "best_sol_test_<i>.npy" and the target under
    "true_sol_test_<i>.npy": two files per sample, the printed score being
    the score of exactly the saved fields, and no file name used twice. *)
Theorem test_report_saves_what_it_scores best X_test y_test bvalues_test mesh bnodes
    gamma u_0 toolbox energy_func rs :
  compile toolbox best = Ok energy_func ->
  (let obj := make_obj mesh bnodes gamma energy_func best in
   solved minimize (bound_total_energy obj) (grad (bound_total_energy obj)) (coeffs u_0)
          X_test y_test bvalues_test rs) ->
  X_test <> [] ->
  exists best_sols saved,
    test_report minimize grad best X_test y_test bvalues_test mesh bnodes gamma u_0
                toolbox =
      Ok (mean (map clamp (zip_with squared_distance best_sols X_test)), saved) /\
    best_sols = map opt_x rs /\
    saved = test_files 0 best_sols X_test /\
    length saved = 2 * length y_test /\
    NoDup saved.*1.
Proof.
  intros Hc Hs HX. exists (map opt_x rs), (test_files 0 (map opt_x rs) X_test).
  destruct (solved_length minimize grad _ _ _ _ _ _ _ Hs) as (HlX & Hly & _).
  split; [|split; [reflexivity|split; [reflexivity|split]]].
  - unfold test_report.
    rewrite (eval_MSE_false_solved _ _ _ _ _ _ _ _ _ _ _ _ _ Hc Hs HX), bind_Ok.
    rewrite (eval_MSE_solved _ _ _ _ _ _ _ _ _ _ _ _ _ true Hc Hs), bind_Ok.
    pose proof (save_loop_files (map opt_x rs) X_test [] []) as Hsave.
    cbn [length app] in Hsave. rewrite Hsave by (rewrite length_map; lia).
    rewrite bind_Ok. unfold clamped_errors.
    change (map opt_x rs) with (opt_x <$> rs). rewrite zip_with_fmap_l. reflexivity.
  - rewrite test_files_length by (rewrite length_map; lia). lia.
  - apply test_files_NoDup.
Qed.

End ReportingFacts.

(** ** The further properties at concrete data *)

Ltac solved_by_evaluation :=
  cbv zeta;
  repeat (eapply solved_cons; [lazy; reflexivity | reflexivity | ]);
  apply solved_nil.

Lemma total_energy_unbound_witness :
  total_energy (coeffs Demo.u_0) [0; 0]%float [1]%float
               (ObjFunction_init Demo.mesh Demo.bnodes Demo.gamma) =
  (Raise (AttributeError "energy_func"),
   ObjFunction_init Demo.mesh Demo.bnodes Demo.gamma).
Proof.
  apply (total_energy_unbound Demo.mesh Demo.bnodes Demo.gamma (coeffs Demo.u_0)
           [0; 0]%float [1]%float).
  - repeat constructor.
  - reflexivity.
Defined.

Lemma total_energy_boundary_out_of_range_witness :
  total_energy [] [0; 0]%float [1]%float Demo.obj_zero = (Raise IndexError, Demo.obj_zero).
Proof.
  apply (total_energy_boundary_out_of_range Demo.obj_zero [] [0; 0]%float [1]%float).
  apply Exists_cons_hd. apply le_n.
Defined.

Lemma total_energy_shape_mismatch_witness :
  total_energy (coeffs Demo.u_0) [0; 0]%float [1; 2; 3]%float
               (make_obj Demo.mesh [0; 1] Demo.gamma (fun _ _ => Ok 0%float) Demo.zero) =
  (Raise ValueError,
   make_obj Demo.mesh [0; 1] Demo.gamma (fun _ _ => Ok 0%float) Demo.zero).
Proof.
  apply (total_energy_shape_mismatch
           (make_obj Demo.mesh [0; 1] Demo.gamma (fun _ _ => Ok 0%float) Demo.zero)
           (coeffs Demo.u_0) [0; 0]%float [1; 2; 3]%float).
  - repeat constructor.
  - discriminate.
  - discriminate.
  - discriminate.
Defined.

Lemma total_energy_single_boundary_value_witness :
  total_energy (coeffs Demo.u_0) [0; 0]%float [1]%float
               (make_obj Demo.mesh [0; 1] Demo.gamma (fun _ _ => Ok 0%float) Demo.zero) =
  (Ok (penalized_energy Demo.gamma [0; 1] 0 (coeffs Demo.u_0) [1; 1]%float),
   make_obj Demo.mesh [0; 1] Demo.gamma (fun _ _ => Ok 0%float) Demo.zero).
Proof.
  apply (total_energy_single_boundary_value
           (make_obj Demo.mesh [0; 1] Demo.gamma (fun _ _ => Ok 0%float) Demo.zero)
           (fun _ _ => Ok 0%float) (coeffs Demo.u_0) [0; 0]%float 1%float).
  - reflexivity.
  - repeat constructor.
Defined.

Lemma eval_MSE_raises_at_sample_witness :
  eval_MSE Demo.minimize Demo.grad Demo.inner_u_fk
           ([[1; 2]%float] ++ [[1; 0.5]; [1; 20]]%float)
           ([[0; 0]%float] ++ [0]%float :: [[0; 0]%float])
           ([[1]%float] ++ [1]%float :: [[1]%float])
           Demo.mesh Demo.bnodes Demo.gamma Demo.u_0 Demo.toolbox true
  = Raise ValueError.
Proof.
  eapply (eval_MSE_raises_at_sample Demo.minimize Demo.grad Demo.inner_u_fk
            [[1; 2]%float] [[0; 0]%float] [[1]%float] [[1; 0.5]; [1; 20]]%float
            [0]%float [[0; 0]%float] [1]%float [[1]%float]
            Demo.mesh Demo.bnodes Demo.gamma Demo.u_0 Demo.toolbox
            (fun c fk => Demo.inner (coeffs c) (coeffs fk))).
  - reflexivity.
  - split; [solved_by_evaluation|reflexivity].
Defined.

Lemma eval_MSE_surplus_targets_witness :
  eval_MSE Demo.minimize Demo.grad Demo.zero (Demo.X_far ++ [[5; 5]%float]) Demo.y3
           (Demo.bvalues_far ++ []) Demo.mesh Demo.bnodes Demo.gamma Demo.u_0
           Demo.toolbox false =
  Ok (vsum (map clamp
              (zip_with (fun r t => squared_distance (opt_x r) t)
                 (Demo.solve_all Demo.obj_zero (coeffs Demo.u_0) Demo.y3 Demo.bvalues_far)
                 Demo.X_far))
      * (1 / float_of_nat (3 + 1)))%float.
Proof.
  apply (eval_MSE_surplus_targets Demo.minimize Demo.grad Demo.zero Demo.X_far Demo.y3
           Demo.bvalues_far [[5; 5]%float] [] Demo.mesh Demo.bnodes Demo.gamma Demo.u_0
           Demo.toolbox (fun _ _ => Ok 0%float)).
  - reflexivity.
  - exact demo_solved_far.
  - discriminate.
Defined.

Lemma eval_MSE_missing_boundary_row_witness :
  eval_MSE Demo.minimize Demo.grad Demo.zero (Demo.X_far ++ [[5; 5]%float])
           (Demo.y3 ++ [0; 0]%float :: []) Demo.bvalues_far
           Demo.mesh Demo.bnodes Demo.gamma Demo.u_0 Demo.toolbox false
  = Raise IndexError.
Proof.
  apply (eval_MSE_missing_boundary_row Demo.minimize Demo.grad Demo.zero Demo.X_far
           Demo.y3 Demo.bvalues_far [[5; 5]%float] [0; 0]%float [] Demo.mesh Demo.bnodes
           Demo.gamma Demo.u_0 Demo.toolbox (fun _ _ => Ok 0%float)
           (Demo.solve_all Demo.obj_zero (coeffs Demo.u_0) Demo.y3 Demo.bvalues_far)).
  - reflexivity.
  - exact demo_solved_far.
Defined.

Lemma eval_MSE_missing_target_witness :
  eval_MSE Demo.minimize Demo.grad Demo.zero Demo.X_far
           (Demo.y3 ++ [0; 0]%float :: []) (Demo.bvalues_far ++ [1]%float :: [])
           Demo.mesh Demo.bnodes Demo.gamma Demo.u_0 Demo.toolbox true
  = Raise IndexError.
Proof.
  eapply (eval_MSE_missing_target Demo.minimize Demo.grad Demo.zero Demo.X_far
            Demo.y3 Demo.bvalues_far [0; 0]%float [] [1]%float [] Demo.mesh Demo.bnodes
            Demo.gamma Demo.u_0 Demo.toolbox (fun _ _ => Ok 0%float)
            (Demo.solve_all Demo.obj_zero (coeffs Demo.u_0) Demo.y3 Demo.bvalues_far)).
  - reflexivity.
  - split; [exact demo_solved_far|lazy; reflexivity].
Defined.

Lemma eval_MSE_modes_agree_witness :
  exists best_sols,
    eval_MSE Demo.minimize Demo.grad Demo.zero Demo.X_far Demo.y3 Demo.bvalues_far
             Demo.mesh Demo.bnodes Demo.gamma Demo.u_0 Demo.toolbox true = Ok best_sols /\
    eval_MSE Demo.minimize Demo.grad Demo.zero Demo.X_far Demo.y3 Demo.bvalues_far
             Demo.mesh Demo.bnodes Demo.gamma Demo.u_0 Demo.toolbox false =
      Ok (mean (map clamp (zip_with squared_distance best_sols Demo.X_far))).
Proof.
  apply (eval_MSE_modes_agree Demo.minimize Demo.grad Demo.zero Demo.X_far Demo.y3
           Demo.bvalues_far Demo.mesh Demo.bnodes Demo.gamma Demo.u_0 Demo.toolbox
           (fun _ _ => Ok 0%float)
           (Demo.solve_all Demo.obj_zero (coeffs Demo.u_0) Demo.y3 Demo.bvalues_far)).
  - reflexivity.
  - exact demo_solved_far.
  - discriminate.
Defined.

Lemma per_sample_error_bounded_witness :
  exists errs,
    eval_MSE Demo.minimize Demo.grad Demo.zero Demo.X_far Demo.y3 Demo.bvalues_far
             Demo.mesh Demo.bnodes Demo.gamma Demo.u_0 Demo.toolbox false =
      Ok (mean errs) /\
    length errs = 3 /\
    Forall (fun err => PrimFloat.is_nan err = false /\ (100 <? err)%float = false) errs.
Proof.
  apply (per_sample_error_bounded Demo.minimize Demo.grad Demo.zero Demo.X_far Demo.y3
           Demo.bvalues_far Demo.mesh Demo.bnodes Demo.gamma Demo.u_0 Demo.toolbox
           (fun _ _ => Ok 0%float)
           (Demo.solve_all Demo.obj_zero (coeffs Demo.u_0) Demo.y3 Demo.bvalues_far)).
  - reflexivity.
  - exact demo_solved_far.
  - discriminate.
Defined.

Lemma demo_total_err_far :
  eval_MSE Demo.minimize Demo.grad Demo.inner_u_fk Demo.X_far Demo.y3 Demo.bvalues_far
           Demo.mesh Demo.bnodes Demo.gamma Demo.u_0 Demo.toolbox false =
  Ok Demo.total_err_far.
Proof. vm_compute. reflexivity. Defined.

Lemma eval_fitness_missing_method_witness :
  eval_fitness Demo.minimize Demo.grad Demo.primitives_strings Demo.inner_u_fk
               Demo.X_far Demo.y3 Demo.bvalues_far Demo.mesh Demo.bnodes Demo.gamma
               Demo.u_0 ∅ Demo.toolbox
  = Raise (KeyError "method").
Proof.
  apply (eval_fitness_missing_method Demo.minimize Demo.grad Demo.primitives_strings
           Demo.inner_u_fk Demo.X_far Demo.y3 Demo.bvalues_far Demo.mesh Demo.bnodes
           Demo.gamma Demo.u_0 ∅ Demo.toolbox Demo.total_err_far).
  - exact demo_total_err_far.
  - reflexivity.
Defined.

Lemma eval_fitness_missing_reg_param_witness :
  eval_fitness Demo.minimize Demo.grad Demo.primitives_strings Demo.inner_u_fk
               Demo.X_far Demo.y3 Demo.bvalues_far Demo.mesh Demo.bnodes Demo.gamma
               Demo.u_0 (<["method" := VStr "length"]> ∅) Demo.toolbox
  = Raise (KeyError "reg_param").
Proof.
  apply (eval_fitness_missing_reg_param Demo.minimize Demo.grad Demo.primitives_strings
           Demo.inner_u_fk Demo.X_far Demo.y3 Demo.bvalues_far Demo.mesh Demo.bnodes
           Demo.gamma Demo.u_0 (<["method" := VStr "length"]> ∅) Demo.toolbox
           Demo.total_err_far).
  - exact demo_total_err_far.
  - right. reflexivity.
  - reflexivity.
Defined.

Lemma eval_fitness_reg_param_not_a_number_witness :
  eval_fitness Demo.minimize Demo.grad Demo.primitives_strings Demo.inner_u_fk
               Demo.X_far Demo.y3 Demo.bvalues_far Demo.mesh Demo.bnodes Demo.gamma
               Demo.u_0
               (<["method" := VStr "primitive"]> (<["reg_param" := VStr "0.1"]> ∅))
               Demo.toolbox
  = Raise TypeError.
Proof.
  apply (eval_fitness_reg_param_not_a_number Demo.minimize Demo.grad
           Demo.primitives_strings Demo.inner_u_fk Demo.X_far Demo.y3 Demo.bvalues_far
           Demo.mesh Demo.bnodes Demo.gamma Demo.u_0
           (<["method" := VStr "primitive"]> (<["reg_param" := VStr "0.1"]> ∅))
           Demo.toolbox Demo.total_err_far "0.1").
  - exact demo_total_err_far.
  - left. split; [reflexivity|discriminate].
  - reflexivity.
Defined.

Lemma eval_fitness_no_tracked_primitives_witness :
  eval_fitness Demo.minimize Demo.grad [] Demo.inner_u_fk
               Demo.X_far Demo.y3 Demo.bvalues_far Demo.mesh Demo.bnodes Demo.gamma
               Demo.u_0 Demo.penalty_primitive Demo.toolbox
  = Raise ValueError.
Proof.
  apply (eval_fitness_no_tracked_primitives Demo.minimize Demo.grad []
           Demo.inner_u_fk Demo.X_far Demo.y3 Demo.bvalues_far Demo.mesh Demo.bnodes
           Demo.gamma Demo.u_0 Demo.penalty_primitive Demo.toolbox Demo.total_err_far
           (VNum 0.1%float)).
  - reflexivity.
  - exact demo_total_err_far.
  - reflexivity.
  - reflexivity.
Defined.

Lemma str_count_disjoint_witness :
  str_count "AddF(InnP0(u, fk), InnP0(u, u))" "InnP0" * 5 <= 31 /\
  str_count "AddF(InnP0(u, fk), InnP0(u, u))" "InnP0" <= 31.
Proof.
  apply (str_count_disjoint "AddF(InnP0(u, fk), InnP0(u, u))" "InnP0").
  discriminate.
Defined.

Lemma total_energy_with_target_boundary_witness :
  total_energy (coeffs Demo.u_0) [0; 0]%float [1]%float Demo.obj_zero =
  (Ok (0 + 0.5 * Demo.gamma *
         foldl (fun acc b =>
                  let d := (default 0 (coeffs Demo.u_0 !! b)
                            - default 0 ([1; 2]%float !! b))%float in
                  (acc + d * d)%float) 0 Demo.bnodes)%float,
   Demo.obj_zero).
Proof.
  apply (total_energy_with_target_boundary Demo.obj_zero (fun _ _ => Ok 0%float)
           Demo.X_far Demo.bvalues_far 0 [1; 2]%float [1]%float (coeffs Demo.u_0)
           [0; 0]%float).
  - reflexivity.
  - reflexivity.
  - reflexivity.
  - reflexivity.
  - repeat constructor.
Defined.

Lemma stgp_poisson_setup_initial_guess_witness :
  match Demo.setup Demo.draws1 with
  | Ok s =>
      setup_gamma s = 1000%float /\
      complex (setup_u_0 s) = Demo.mesh /\
      length (coeffs (setup_u_0 s)) = 2 /\
      (forall k, k < 2 -> coeffs (setup_u_0 s) !! k = Some (0.01 * Demo.draws1 k)%float) /\
      (forall k,
         snd (stgp_poisson_setup Demo.minimize Demo.grad Demo.primitives_strings
                Demo.toolbox Demo.data Demo.config_file Demo.draws1) k
           = Demo.draws1 (2 + k))
  | Raise _ => False
  end.
Proof.
  destruct (Demo.setup Demo.draws1) as [s|e] eqn:Hs.
  - exact (stgp_poisson_setup_initial_guess Demo.minimize Demo.grad
             Demo.primitives_strings Demo.toolbox Demo.data Demo.config_file
             Demo.draws1 s Hs).
  - lazy in Hs. discriminate Hs.
Defined.

Lemma stgp_poisson_setup_boundary_out_of_range_witness :
  stgp_poisson_setup Demo.minimize Demo.grad Demo.primitives_strings Demo.toolbox
    {| data_S := Demo.mesh; data_bnodes := [2];
       X_train := Demo.X_far; X_val := Demo.X_far; X_test := Demo.X_far;
       y_train := Demo.y3; y_val := Demo.y3; y_test := Demo.y3 |}
    Demo.config_file Demo.draws1 =
  (Raise IndexError, Demo.draws1).
Proof.
  apply (stgp_poisson_setup_boundary_out_of_range Demo.minimize Demo.grad
           Demo.primitives_strings Demo.toolbox
           {| data_S := Demo.mesh; data_bnodes := [2];
              X_train := Demo.X_far; X_val := Demo.X_far; X_test := Demo.X_far;
              y_train := Demo.y3; y_val := Demo.y3; y_test := Demo.y3 |}
           Demo.config_file Demo.draws1).
  apply Exists_cons_hd. apply Exists_cons_hd. apply le_n.
Defined.

Lemma validation_fitness_from_error_witness :
  match Demo.setup Demo.draws1 with
  | Ok s =>
      evaluate_val_fit s Demo.zero =
        (fun err => Tuple1 (err + 0.1 * float_of_nat (length Demo.zero))%float)
          <$> evaluate_val_MSE s Demo.zero
  | Raise _ => False
  end.
Proof.
  destruct (Demo.setup Demo.draws1) as [s|e] eqn:Hs.
  - apply (proj2 (validation_fitness_from_error Demo.minimize Demo.grad
                    Demo.primitives_strings Demo.toolbox Demo.data Demo.config_file
                    Demo.draws1 s Demo.zero Hs) 0.1%float); reflexivity.
  - lazy in Hs. discriminate Hs.
Defined.

Lemma decorate_within_limit_is_identity_witness :
  decorate (Demo.cx_tails 5 5) [Demo.parent1; Demo.parent2] (fun _ => 1) =
  (Ok [take 5 Demo.parent1 ++ drop 5 Demo.parent2;
       take 5 Demo.parent2 ++ drop 5 Demo.parent1], fun _ => 1).
Proof.
  apply (decorate_within_limit_is_identity (Demo.cx_tails 5 5)
           [Demo.parent1; Demo.parent2] (fun _ => 1)).
  - reflexivity.
  - repeat constructor; exists 10; (split; [reflexivity|unfold max_height; lia]).
Defined.

Lemma plot_sol_draws_three_samples_witness :
  exists calls,
    plot_sol Demo.minimize Demo.grad Demo.zero Demo.X_far Demo.y3 Demo.bvalues_far
             Demo.mesh Demo.bnodes Demo.gamma Demo.u_0 tt Demo.toolbox = Ok calls /\
    length calls = 6.
Proof.
  eexists. split.
  - eapply (plot_sol_draws_three_samples Demo.minimize Demo.grad Demo.zero
              [1; 2]%float [1; 0.5]%float [1; 20]%float [] Demo.y3 Demo.bvalues_far
              _ _ _ _ Demo.mesh Demo.bnodes Demo.gamma Demo.u_0 tt Demo.toolbox
              (fun _ _ => Ok 0%float)).
    + reflexivity.
    + solved_by_evaluation.
  - reflexivity.
Defined.

Lemma plot_sol_needs_three_samples_witness :
  plot_sol Demo.minimize Demo.grad Demo.zero [[1; 2]; [1; 0.5]]%float
           [[0; 0]; [0; 0]]%float [[1]; [1]]%float
           Demo.mesh Demo.bnodes Demo.gamma Demo.u_0 tt Demo.toolbox
  = Raise IndexError.
Proof.
  eapply (plot_sol_needs_three_samples Demo.minimize Demo.grad Demo.zero
            [[1; 2]; [1; 0.5]]%float [[0; 0]; [0; 0]]%float [[1]; [1]]%float _
            Demo.mesh Demo.bnodes Demo.gamma Demo.u_0 tt Demo.toolbox
            (fun _ _ => Ok 0%float)).
  - reflexivity.
  - solved_by_evaluation.
  - repeat constructor.
Defined.

Lemma test_report_saves_what_it_scores_witness :
  exists best_sols saved,
    test_report Demo.minimize Demo.grad Demo.zero Demo.X_far Demo.y3 Demo.bvalues_far
                Demo.mesh Demo.bnodes Demo.gamma Demo.u_0 Demo.toolbox =
      Ok (mean (map clamp (zip_with squared_distance best_sols Demo.X_far)), saved) /\
    best_sols =
      map opt_x (Demo.solve_all Demo.obj_zero (coeffs Demo.u_0) Demo.y3 Demo.bvalues_far) /\
    saved = test_files 0 best_sols Demo.X_far /\
    length saved = 2 * length Demo.y3 /\
    NoDup saved.*1.
Proof.
  apply (test_report_saves_what_it_scores Demo.minimize Demo.grad Demo.zero Demo.X_far
           Demo.y3 Demo.bvalues_far Demo.mesh Demo.bnodes Demo.gamma Demo.u_0
           Demo.toolbox (fun _ _ => Ok 0%float)).
  - reflexivity.
  - exact demo_solved_far.
  - discriminate.
Defined.
